(** * Monthly BigQuery billing export: model of [main.py] and its properties

    The Cloud Function in [main.py] computes, once a month, three reports
    (storage usage, per-query costs, per-project costs) for the previous
    calendar month and appends each of them to a table of the billing
    dataset unless that table already holds rows of that month.

    Modelling conventions:
    - Python [int] and BigQuery [INT64] are [Z]; the byte counts of the job
      metadata stay far below 2^63, so the overflow error of INT64 is not
      modelled.
    - BigQuery [FLOAT64] is idealised as exact rationals ([Q]); [ROUND]
      rounds half away from zero, as BigQuery documents it. A product or
      quotient is therefore not rounded to the nearest double before
      [ROUND] sees it: where the double falls exactly halfway between two
      decimals and the rational does not, the last digit of the model can
      differ from that of BigQuery.
    - SQL NULL is [None]; SQL conditions are three-valued ([option bool]).
    - A TIMESTAMP is its number of microseconds since 1970-01-01 00:00:00 UTC.
    - [datetime.date] is the proleptic Gregorian calendar of CPython's
      [datetime] module, years 1 to 9999; [strftime] is that of CPython on
      the Linux runtime of Cloud Functions, whose C library prints [%Y]
      without leading zeros.
    - The BigQuery and Cloud Storage services are an explicit state, and the
      Python code runs in a state-and-exception monad over it.
    - The job metadata is fixed during a run: the jobs the module itself
      starts are dated today, after the period it reports on, and are not
      among the jobs the cost queries select. *)

From Stdlib Require Import ZArith QArith Qround Lia Lqa Bool Ascii String OrderedTypeEx.
From stdpp Require Import gmap strings list fin_maps sorting.

#[local] Open Scope Z_scope.

(** ** [datetime.date]: the calendar arithmetic the module relies on *)

Module Date.

Record date := mkdate { year : Z; month : Z; day : Z }.

#[global] Instance date_eq_dec : EqDecision date.
Proof. solve_decision. Defined.

Definition MINYEAR : Z := 1.
Definition MAXYEAR : Z := 9999.

(** [_is_leap(year)] *)
Definition is_leap (y : Z) : bool :=
  (y mod 4 =? 0) && (negb (y mod 100 =? 0) || (y mod 400 =? 0)).

(** [_DAYS_IN_MONTH[month]] *)
Definition DAYS_IN_MONTH (m : Z) : Z :=
  match m with
  | 1 => 31 | 2 => 28 | 3 => 31 | 4 => 30 | 5 => 31 | 6 => 30
  | 7 => 31 | 8 => 31 | 9 => 30 | 10 => 31 | 11 => 30 | 12 => 31
  | _ => 0
  end.

(** [_DAYS_BEFORE_MONTH[month]] *)
Definition DAYS_BEFORE_MONTH (m : Z) : Z :=
  match m with
  | 1 => 0 | 2 => 31 | 3 => 59 | 4 => 90 | 5 => 120 | 6 => 151
  | 7 => 181 | 8 => 212 | 9 => 243 | 10 => 273 | 11 => 304 | 12 => 334
  | _ => 0
  end.

(** [_days_in_month(year, month)] *)
Definition days_in_month (y m : Z) : Z :=
  if (m =? 2) && is_leap y then 29 else DAYS_IN_MONTH m.

(** [_days_before_year(year)] *)
Definition days_before_year (y : Z) : Z :=
  let y := y - 1 in y * 365 + y / 4 - y / 100 + y / 400.

(** [_days_before_month(year, month)] *)
Definition days_before_month (y m : Z) : Z :=
  DAYS_BEFORE_MONTH m + (if (2 <? m) && is_leap y then 1 else 0).

(** [_ymd2ord(year, month, day)] *)
Definition ymd2ord (y m d : Z) : Z :=
  days_before_year y + days_before_month y m + d.

Definition DI400Y : Z := 146097.
Definition DI100Y : Z := 36524.
Definition DI4Y : Z := 1461.
Definition MAXORDINAL : Z := 3652059.

(** [_ord2ymd(n)] *)
Definition ord2ymd (n : Z) : date :=
  let n := n - 1 in
  let n400 := n / DI400Y in let n := n mod DI400Y in
  let y := n400 * 400 + 1 in
  let n100 := n / DI100Y in let n := n mod DI100Y in
  let n4 := n / DI4Y in let n := n mod DI4Y in
  let n1 := n / 365 in let n := n mod 365 in
  let y := y + n100 * 100 + n4 * 4 + n1 in
  if (n1 =? 4) || (n100 =? 4) then mkdate (y - 1) 12 31
  else
    let leapyear := (n1 =? 3) && (negb (n4 =? 24) || (n100 =? 3)) in
    let m := Z.shiftr (n + 50) 5 in
    let preceding := DAYS_BEFORE_MONTH m + (if (2 <? m) && leapyear then 1 else 0) in
    if n <? preceding then
      let m := m - 1 in
      let preceding :=
        preceding - (DAYS_IN_MONTH m + (if (m =? 2) && leapyear then 1 else 0)) in
      mkdate y m (n - preceding + 1)
    else mkdate y m (n - preceding + 1).

(** The values a [datetime.date] object can hold. *)
Definition valid (d : date) : Prop :=
  MINYEAR <= year d <= MAXYEAR /\ 1 <= month d <= 12 /\
  1 <= day d <= days_in_month (year d) (month d).

(** [date.toordinal()] *)
Definition toordinal (d : date) : Z := ymd2ord (year d) (month d) (day d).

(** [date.__sub__(timedelta(days=n))]: [None] is Python's [OverflowError]
    ("date value out of range"). *)
Definition sub_days (d : date) (n : Z) : option date :=
  let o := toordinal d - n in
  if (0 <? o) && (o <=? MAXORDINAL) then Some (ord2ymd o) else None.

End Date.

Import Date.

(** [date.strftime]: [%m] and [%d] are two digits, padded with a zero. *)
Definition digit (n : Z) : ascii := ascii_of_nat (48 + Z.to_nat (n mod 10)).

Definition pad2 (n : Z) : string :=
  String (digit (n / 10)) (String (digit n) EmptyString).

Definition pad4 (n : Z) : string :=
  String (digit (n / 1000)) (String (digit (n / 100)) (pad2 n)).

(** [%Y], for the years 1 to 9999 of a [date]: CPython 3.11 hands the
    directive to the C library of the runtime, which prints the year with
    as many digits as it has, so that year 999 is "999" and not "0999";
    from year 1000 on these are four digits. BigQuery's [FORMAT_DATE]
    prints [%Y] in the same way. *)
Definition year_str (y : Z) : string :=
  if y <? 10 then String (digit y) EmptyString
  else if y <? 100 then pad2 y
  else if y <? 1000 then String (digit (y / 100)) (pad2 y)
  else pad4 y.

(** [d.strftime('%Y%m')], and BigQuery's [FORMAT_DATE("%Y%m", d)] *)
Definition strftime_Ym (d : date) : string := year_str (year d) +:+ pad2 (month d).

(** [d.strftime('%Y-%m-%d')], the form in which the period bounds are
    written into the text of the cost queries *)
Definition strftime_Ymd (d : date) : string :=
  year_str (year d) +:+ "-" +:+ pad2 (month d) +:+ "-" +:+ pad2 (day d).

(** ** Exceptions and module-level globals *)

Inductive exn :=
| NotFound                      (* google.cloud.exceptions.NotFound *)
| KeyError (key : string)       (* os.environ[...] on a missing variable *)
| OverflowError                 (* date arithmetic out of range *)
| ServiceError (msg : string).  (* any other exception raised by a client call *)

#[global] Instance exn_eq_dec : EqDecision exn.
Proof. solve_decision. Defined.

(** [s.split(sep)] for a one-character separator. *)
Fixpoint str_split (sep : ascii) (s : string) : list string :=
  match s with
  | EmptyString => [EmptyString]
  | String c rest =>
      if Ascii.eqb c sep then EmptyString :: str_split sep rest
      else match str_split sep rest with
           | x :: xs => String c x :: xs
           | [] => [String c EmptyString]
           end
  end.

(** The names bound at module level ("Set global vars", "Set global date
    vars"). *)
Record globals := {
  project_id : string;
  data_bucket_name : string;
  main_table_name : string;
  bigquery_projects : list string;
  billing_project_id : string;
  billing_dataset_id : string;
  date_tc : date;
  date_last_day_previous_month : date;
  date_first_day_previous_month : date;
  str_last_month : string
}.

(** Lines 29-33: the reporting period, from [date.today()]. *)
Definition previous_month (today : date) : option (date * date * string) :=
  match sub_days today (day today) with
  | None => None
  | Some last_day =>
      match sub_days last_day (day last_day - 1) with
      | None => None
      | Some first_day => Some (first_day, last_day, strftime_Ym first_day)
      end
  end.

Definition getenv (environ : gmap string string) (k : string) : exn + string :=
  match environ !! k with Some v => inr v | None => inl (KeyError k) end.

(** Execution of the module body, lines 21-33: [environ] is [os.environ] and
    [today] the value of [date.today()]. *)
Definition module_init (environ : gmap string string) (today : date) : exn + globals :=
  match getenv environ "PROJECT_ID" with inl e => inl e | inr v_project =>
  match getenv environ "BUCKET_NAME" with inl e => inl e | inr v_bucket =>
  match getenv environ "MAIN_TABLE_NAME" with inl e => inl e | inr v_main =>
  match getenv environ "BIQUERY_PROJECTS" with inl e => inl e | inr v_projects =>
  match getenv environ "BILLING_PROJECT_ID" with inl e => inl e | inr v_bproject =>
  match getenv environ "BILLING_DATASET_ID" with inl e => inl e | inr v_bdataset =>
  match previous_month today with
  | None => inl OverflowError
  | Some (first_day, last_day, key) =>
      inr {| project_id := v_project;
             data_bucket_name := v_bucket;
             main_table_name := v_main;
             bigquery_projects := str_split "," v_projects;
             billing_project_id := v_bproject;
             billing_dataset_id := v_bdataset;
             date_tc := today;
             date_last_day_previous_month := last_day;
             date_first_day_previous_month := first_day;
             str_last_month := key |}
  end end end end end end end.

(** ** SQL values and scalar functions *)

Inductive value :=
| VNull
| VInt (z : Z)
| VFloat (q : Q)
| VString (s : string)
| VTimestamp (t : Z).

(** A result row: the cells by column name, in the order of the SELECT
    list. A DataFrame is the list of its rows. *)
Definition row : Type := list (string * value).
Definition DataFrame : Type := list row.

Fixpoint cell (c : string) (r : row) : value :=
  match r with
  | [] => VNull
  | (c', v) :: r' => if String.eqb c c' then v else cell c r'
  end.

Definition vstr (x : option string) : value := from_option VString VNull x.
Definition vint (x : option Z) : value := from_option VInt VNull x.
Definition vfloat (x : option Q) : value := from_option VFloat VNull x.
Definition vts (x : option Z) : value := from_option VTimestamp VNull x.

(** Three-valued conditions: [None] is NULL. *)
Definition sql_and (a b : option bool) : option bool :=
  match a, b with
  | Some false, _ | _, Some false => Some false
  | Some true, Some true => Some true
  | _, _ => None
  end.

Definition sql_eq_string (a : option string) (b : string) : option bool :=
  (fun x => String.eqb x b) <$> a.

Definition sql_neq_bool (a : option bool) (b : bool) : option bool :=
  (fun x => negb (Bool.eqb x b)) <$> a.

(** [x BETWEEN lo AND hi] is [lo <= x AND x <= hi]. *)
Definition sql_between (x : option Z) (lo hi : Z) : option bool :=
  (fun t => (lo <=? t) && (t <=? hi)) <$> x.

(** [IF(c, a, b)]: [a] when [c] is TRUE, [b] when it is FALSE or NULL. *)
Definition sql_if {A} (c : option bool) (a b : A) : A :=
  match c with Some true => a | _ => b end.

(** A WHERE clause keeps the rows on which its condition is TRUE. *)
Definition is_true (c : option bool) : bool :=
  match c with Some true => true | _ => false end.

(** Rounding to the nearest integer, halfway cases away from zero. *)
Definition round_half_away (x : Q) : Z :=
  if Qle_bool 0 x then Qfloor (x + (1 # 2)) else - Qfloor (- x + (1 # 2)).

(** [ROUND(x, n)] on FLOAT64, for a number [n] of decimal places. *)
Definition ROUND (x : option Q) (n : nat) : option Q :=
  (fun q => round_half_away (q * inject_Z (10 ^ Z.of_nat n)) # Pos.of_nat (10 ^ n)) <$> x.

(** [SUM] skips NULLs and is NULL when no input is left. *)
Definition SUM_int (l : list (option Z)) : option Z :=
  match omap id l with [] => None | x :: xs => Some (fold_left Z.add xs x) end.

Definition SUM_float (l : list (option Q)) : option Q :=
  match omap id l with [] => None | x :: xs => Some (fold_left Qplus xs x) end.

(** INT64 / INT64 is FLOAT64 division. *)
Definition sql_div (a b : option Z) : option Q :=
  match a, b with
  | Some x, Some y => Some (inject_Z x / inject_Z y)%Q
  | _, _ => None
  end.

(** INT64 * FLOAT64 *)
Definition sql_mul (a : option Z) (b : option Q) : option Q :=
  match a, b with
  | Some x, Some y => Some (inject_Z x * y)%Q
  | _, _ => None
  end.

Definition MICROS_PER_DAY : Z := 86400 * 1000000.
Definition EPOCH_ORDINAL : Z := 719163.   (* date(1970, 1, 1).toordinal() *)

(** A date literal ['YYYY-MM-DD'] compared with a TIMESTAMP is coerced to
    midnight UTC of that day. *)
Definition timestamp_of_date (d : date) : Z :=
  (toordinal d - EPOCH_ORDINAL) * MICROS_PER_DAY.

(** [DATE(ts)], in UTC. *)
Definition DATE (ts : option Z) : option date :=
  (fun t => ord2ymd (EPOCH_ORDINAL + t / MICROS_PER_DAY)) <$> ts.

Definition FORMAT_DATE_Ym (d : option date) : option string := strftime_Ym <$> d.

(** ** The services: BigQuery tables, job metadata, Cloud Storage blobs *)

(** A row of [`region-us`.INFORMATION_SCHEMA.JOBS_BY_ORGANIZATION]; every
    column is nullable. *)
Module Job.
Record job := {
  job_id : option string;
  job_type : option string;
  state : option string;
  start_time : option Z;
  project_id : option string;
  user_email : option string;
  total_bytes_billed : option Z;
  total_bytes_processed : option Z;
  cache_hit : option bool
}.
End Job.
Import (coercions) Job.
Abbreviation job := Job.job.

Record blob := { blob_bucket : string; blob_name : string; blob_size : Z }.

(** A table is the sequence of load jobs that filled it; its rows are
    theirs, in order. *)
Record table := { tbl_loads : list DataFrame }.

Definition table_rows (t : table) : list row := concat (tbl_loads t).

(** Logical size of a cell, as BigQuery accounts for it. *)
Definition value_bytes (v : value) : Z :=
  match v with
  | VNull => 0
  | VInt _ | VFloat _ | VTimestamp _ => 8
  | VString s => 2 + Z.of_nat (String.length s)
  end.

Definition row_bytes (r : row) : Z :=
  fold_right (fun cv acc => value_bytes cv.2 + acc) 0 r.

(** [table.num_rows] and [table.num_bytes] *)
Definition num_rows (t : table) : Z := Z.of_nat (length (table_rows t)).
Definition num_bytes (t : table) : Z :=
  fold_right (fun r acc => row_bytes r + acc) 0 (table_rows t).

(** The three kinds of query text the module sends. The period bounds of
    the two cost queries are the dates interpolated into the text. *)
Inductive query :=
| SelectMonth (table_id key : string)
| JobsCostsDetail (first_day last_day : date)
| JobsCostsPerProject (first_day last_day : date).

Inductive request :=
| GetTable (table_id : string)
| RunQuery (q : query)
| ListBlobs (bucket prefix : string)
| LoadTable (table_id : string).

(** State of the outside world. [failing] tells which requests the service
    refuses, and with which exception: an error of its own (unreachable,
    forbidden, quota, ...), or a [NotFound] that does not come from the
    absence of the table in [bq_tables] (the dataset is not in the location
    the query job runs in, the table is being deleted). A request that is
    not refused is answered from the data. *)
Record world := {
  bq_tables : gmap string table;
  bq_jobs : list job;
  cs_blobs : list blob;
  failing : request -> option exn
}.

Definition set_tables (f : gmap string table -> gmap string table) (w : world) : world :=
  {| bq_tables := f (bq_tables w); bq_jobs := bq_jobs w;
     cs_blobs := cs_blobs w; failing := failing w |}.

(** ** The queries *)

Definition gb_divisor : Z := 1024 * 1024 * 1024.
Definition tb_divisor : Z := gb_divisor * 1024.
Definition cost_per_tb_in_dollar : Z := 5.
Definition cost_factor : option Q := sql_div (Some cost_per_tb_in_dollar) (Some tb_divisor).

(** [IF(cache_hit != true, ROUND(total_bytes_processed * cost_factor,4),0)] *)
Definition cost_in_dollar (j : job) : option Q :=
  sql_if (sql_neq_bool (Job.cache_hit j) true)
         (ROUND (sql_mul (Job.total_bytes_processed j) cost_factor) 4)
         (Some 0%Q).

(** The WHERE clause shared by the two cost queries. *)
Definition where_jobs (first_day last_day : date) (j : job) : option bool :=
  sql_and
    (sql_and (sql_eq_string (Job.job_type j) "QUERY")
             (sql_eq_string (Job.state j) "DONE"))
    (sql_between (Job.start_time j)
                 (timestamp_of_date first_day) (timestamp_of_date last_day)).

Definition month_of (j : job) : option string :=
  FORMAT_DATE_Ym (DATE (Job.start_time j)).

(** *** Per-query detail (lines 78-89) *)

Definition detail_select (j : job) : row :=
  [ ("project_id", vstr (Job.project_id j));
    ("month", vstr (month_of j));
    ("start_time", vts (Job.start_time j));
    ("user_email", vstr (Job.user_email j));
    ("job_id", vstr (Job.job_id j));
    ("bytes_processed_in_gb",
       vfloat (ROUND (sql_div (Job.total_bytes_billed j) (Some gb_divisor)) 2));
    ("cost_in_dollar", vfloat (cost_in_dollar j)) ]%string.

(** Comparison functions for ORDER BY: ascending, NULLs first. *)
Definition cmp_option {A} (c : A -> A -> comparison) (x y : option A) : comparison :=
  match x, y with
  | None, None => Eq
  | None, Some _ => Lt
  | Some _, None => Gt
  | Some a, Some b => c a b
  end.

Definition cmp_pair {A B} (ca : A -> A -> comparison) (cb : B -> B -> comparison)
    (x y : A * B) : comparison :=
  match ca x.1 y.1 with
  | Eq => cb x.2 y.2
  | c => c
  end.

(** The ORDER BY key of the detail query. *)
Definition order_key : Type := option string * (option Z * option string).

Definition job_order_key (j : job) : order_key :=
  (Job.project_id j, (Job.start_time j, Job.user_email j)).

Definition order_key_cmp : order_key -> order_key -> comparison :=
  cmp_pair (cmp_option String.compare)
           (cmp_pair (cmp_option Z.compare) (cmp_option String.compare)).

Definition order_key_le (x y : order_key) : Prop := order_key_cmp x y <> Gt.

#[global] Instance order_key_le_dec x y : Decision (order_key_le x y).
Proof. unfold order_key_le. solve_decision. Defined.

Definition job_le (i j : job) : Prop := order_key_le (job_order_key i) (job_order_key j).

#[global] Instance job_le_dec i j : Decision (job_le i j).
Proof. unfold job_le. apply _. Defined.

Definition selected (first_day last_day : date) (jobs : list job) : list job :=
  filter (fun j => is_true (where_jobs first_day last_day j)) jobs.

Definition costs_detail_query (first_day last_day : date) (jobs : list job) : list row :=
  detail_select <$> merge_sort job_le (selected first_day last_day jobs).

(** *** Per-project summary (lines 45-62) *)

(** A row of the inner SELECT. *)
Record costs_row := {
  c_start_time : option Z;
  c_project_id : option string;
  c_month : option string;
  c_user_email : option string;
  c_total_bytes_billed : option Z;
  c_cost_in_dollar : option Q
}.

Definition costs_select (j : job) : costs_row :=
  {| c_start_time := Job.start_time j;
     c_project_id := Job.project_id j;
     c_month := month_of j;
     c_user_email := Job.user_email j;
     c_total_bytes_billed := Job.total_bytes_billed j;
     c_cost_in_dollar := cost_in_dollar j |}.

Definition costs_subquery (first_day last_day : date) (jobs : list job) : list costs_row :=
  costs_select <$> selected first_day last_day jobs.

(** [GROUP BY user_email, project_id, month]; NULLs form a group of their
    own. *)
Definition group_key : Type := option string * option string * option string.

Definition group_key_of (r : costs_row) : group_key :=
  (c_user_email r, c_project_id r, c_month r).

Definition group_of (k : group_key) (rs : list costs_row) : list costs_row :=
  filter (fun r => group_key_of r = k) rs.

(** The SELECT list over one group. *)
Definition per_project_select (k : group_key) (grp : list costs_row) : row :=
  [ ("project_id", vstr k.1.2);
    ("user_email", vstr k.1.1);
    ("month", vstr k.2);
    ("num_queries", VInt (Z.of_nat (length grp)));
    ("bytes_processed_in_gb",
       vfloat (ROUND (sql_div (SUM_int (c_total_bytes_billed <$> grp)) (Some gb_divisor)) 2));
    ("cost_in_dollar", vfloat (ROUND (SUM_float (c_cost_in_dollar <$> grp)) 4)) ]%string.

(** One output row per group, groups in order of first appearance (SQL
    leaves the order open). *)
Definition costs_per_project_query (first_day last_day : date) (jobs : list job) : list row :=
  let rs := costs_subquery first_day last_day jobs in
  (fun k => per_project_select k (group_of k rs)) <$> remove_dups (group_key_of <$> rs).

(** *** The month lookup of the idempotence check (line 144) *)

(** [month = 'key'] on a STRING column. *)
Definition month_is (key : string) (r : row) : option bool :=
  match cell "month" r with
  | VString s => Some (String.eqb s key)
  | _ => None
  end.

Definition select_month (key : string) (rs : list row) : list row :=
  (fun _ => [("f0_"%string, VInt 1)]) <$> filter (fun r => is_true (month_is key r)) rs.

(** Result of a query on the data of [w]. *)
Definition eval_query (w : world) (q : query) : exn + list row :=
  match q with
  | SelectMonth table_id key =>
      match bq_tables w !! table_id with
      | None => inl NotFound
      | Some t => inr (select_month key (table_rows t))
      end
  | JobsCostsDetail first_day last_day =>
      inr (costs_detail_query first_day last_day (bq_jobs w))
  | JobsCostsPerProject first_day last_day =>
      inr (costs_per_project_query first_day last_day (bq_jobs w))
  end.

(** ** State-and-exception monad *)

Definition M (A : Type) : Type := world -> (exn + A) * world.

#[global] Instance M_ret : MRet M := fun A x w => (inr x, w).

#[global] Instance M_bind : MBind M := fun A B f m w =>
  match m w with
  | (inl e, w') => (inl e, w')
  | (inr x, w') => f x w'
  end.

Definition raise {A} (e : exn) : M A := fun w => (inl e, w).

(** [try: body except <class>: handler]: [handler e] is [None] when the
    except clause does not match [e]. *)
Definition try_except {A} (body : M A) (handler : exn -> option (M A)) : M A :=
  fun w =>
    match body w with
    | (inl e, w') =>
        match handler e with
        | Some h => h w'
        | None => (inl e, w')
        end
    | r => r
    end.

(** ** Client calls *)

(** [BQ.get_table(table_id)]: raises NotFound if the table doesn't exist. *)
Definition BQ_get_table (table_id : string) : M table := fun w =>
  match failing w (GetTable table_id) with
  | Some e => (inl e, w)
  | None =>
      match bq_tables w !! table_id with
      | Some t => (inr t, w)
      | None => (inl NotFound, w)
      end
  end.

(** [BQ.query(query).result()] *)
Definition BQ_query (q : query) : M (list row) := fun w =>
  match failing w (RunQuery q) with
  | Some e => (inl e, w)
  | None => (eval_query w q, w)
  end.

(** [CS.list_blobs(bucket, prefix=prefix)], iterated to the end. *)
Definition CS_list_blobs (bucket prefix : string) : M (list blob) := fun w =>
  match failing w (ListBlobs bucket prefix) with
  | Some e => (inl e, w)
  | None =>
      (inr (filter (fun b => blob_bucket b = bucket /\ String.prefix prefix (blob_name b))
                   (cs_blobs w)), w)
  end.

(** One load job appends the rows of a non-empty frame; an empty frame
    only makes sure the table exists. *)
Definition append_load (df : DataFrame) (t : table) : table :=
  match df with
  | [] => t
  | _ => {| tbl_loads := tbl_loads t ++ [df] |}
  end.

(** [df.to_gbq(destination_table=..., project_id=..., if_exists="append")]:
    creates the table or appends to it; nothing is written when the load
    fails. *)
Definition to_gbq (df : DataFrame) (destination_table project : string) : M unit := fun w =>
  let table_id := project +:+ "." +:+ destination_table in
  match failing w (LoadTable table_id) with
  | Some e => (inl e, w)
  | None =>
      let t := default {| tbl_loads := [] |} (bq_tables w !! table_id) in
      (inr tt, set_tables <[table_id := append_load df t]> w)
  end.

(** ** The functions of [main.py]

    Calls to [logger] write to the process output only and are left out. *)

Section Program.

Variable g : globals.

(** [generate_bq_jobs_costs_per_project] *)
Definition generate_bq_jobs_costs_per_project : M DataFrame :=
  BQ_query (JobsCostsPerProject (date_first_day_previous_month g)
                                (date_last_day_previous_month g)).

(** [generate_bq_jobs_costs_detail] *)
Definition generate_bq_jobs_costs_detail : M DataFrame :=
  BQ_query (JobsCostsDetail (date_first_day_previous_month g)
                            (date_last_day_previous_month g)).

(** The body of [for project in bigquery_projects], with [data] the list
    built so far. *)
Fixpoint storage_usage_loop (projects : list string) (data : list row) : M (list row) :=
  match projects with
  | [] => mret data
  | project :: projects' =>
      let main_table_id := project_id g +:+ "." +:+ project +:+ "." +:+ main_table_name g in
      table ← BQ_get_table main_table_id;
      let bq_project_size := num_bytes table in
      blobs ← CS_list_blobs (data_bucket_name g) project;
      let cs_project_size := fold_left (fun acc b => acc + blob_size b) blobs 0 in
      storage_usage_loop projects'
        (data ++ [[ ("project", VString project);
                    ("month", VString (str_last_month g));
                    ("cloud_storage_bytes", VInt cs_project_size);
                    ("bigquery_storage_bytes", VInt bq_project_size) ]%string])
  end.

(** [generate_storage_usage] *)
Definition generate_storage_usage : M DataFrame :=
  storage_usage_loop (bigquery_projects g) [].

(** [can_insert_data] *)
Definition can_insert_data (table_name : string) : M bool :=
  let table_id :=
    billing_project_id g +:+ "." +:+ billing_dataset_id g +:+ "." +:+ table_name in
  try_except
    (_ ← BQ_get_table table_id;
     result ← BQ_query (SelectMonth table_id (str_last_month g));
     if (Z.of_nat (length result) =? 0) then mret true else mret false)
    (fun e => match e with NotFound => Some (mret true) | _ => None end).

(** [store_df_in_bq] *)
Definition store_df_in_bq (df : DataFrame) (table_name : string) : M unit :=
  to_gbq df (billing_dataset_id g +:+ "." +:+ table_name) (billing_project_id g).

(** The [reports] dictionary of [main], in insertion order. *)
Definition reports : list (string * M DataFrame) :=
  [ ("storage_usage", generate_storage_usage);
    ("bq_jobs_costs_detail", generate_bq_jobs_costs_detail);
    ("bq_jobs_costs_per_project", generate_bq_jobs_costs_per_project) ]%string.

(** One iteration of the loop of [main]. *)
Definition report_step (table_name : string) (func_ref : M DataFrame) : M unit :=
  ok ← can_insert_data table_name;
  if ok : bool then
    df ← func_ref;
    store_df_in_bq df table_name
  else mret tt.

Fixpoint for_reports (items : list (string * M DataFrame)) : M unit :=
  match items with
  | [] => mret tt
  | (table_name, func_ref) :: items' =>
      _ ← report_step table_name func_ref;
      for_reports items'
  end.

(** [main(event, context)] *)
Definition main : M unit := for_reports reports.

End Program.

(** The fully-qualified id of a table of the billing dataset. *)
Definition billing_table_id (g : globals) (table_name : string) : string :=
  billing_project_id g +:+ "." +:+ billing_dataset_id g +:+ "." +:+ table_name.

(** ** Vocabulary of the statements *)

#[global] Instance Q_eq_dec : EqDecision Q.
Proof. solve_decision. Defined.

#[global] Instance value_eq_dec : EqDecision value.
Proof. solve_decision. Defined.

(** The fully-qualified id of the main table of a tracked dataset. *)
Definition main_table_id (g : globals) (project : string) : string :=
  project_id g +:+ "." +:+ project +:+ "." +:+ main_table_name g.

(** The rows of a table whose month column equals [key]. *)
Definition rows_of_month (key : string) (t : table) : list row :=
  filter (fun r => cell "month" r = VString key) (table_rows t).

(** A load carries month [m] when one of its rows has it in the month
    column. *)
Definition carries_month (m : string) (df : DataFrame) : Prop :=
  Exists (fun r => cell "month" r = VString m) df.

Definition loads_of_month (m : string) (t : table) : list DataFrame :=
  filter (carries_month m) (tbl_loads t).

(** No table holds two loads of the same month. *)
Definition one_load_per_month (w : world) : Prop :=
  forall table_id t m,
    bq_tables w !! table_id = Some t -> (length (loads_of_month m t) <= 1)%nat.

(** Equality of nullable FLOAT64 values. *)
Definition float_eq (a b : option Q) : Prop :=
  match a, b with
  | Some x, Some y => (x == y)%Q
  | None, None => True
  | _, _ => False
  end.

(** The ORDER BY key read back from a row of the detail report. *)
Definition as_string (v : value) : option string :=
  match v with VString s => Some s | _ => None end.

Definition as_timestamp (v : value) : option Z :=
  match v with VTimestamp t => Some t | _ => None end.

Definition row_order_key (r : row) : order_key :=
  (as_string (cell "project_id" r),
   (as_timestamp (cell "start_time" r), as_string (cell "user_email" r))).

Definition row_le (r1 r2 : row) : Prop :=
  order_key_le (row_order_key r1) (row_order_key r2).

(** The year and month before month [m] of year [y]. *)
Definition month_before (y m : Z) : Z * Z :=
  if m =? 1 then (y - 1, 12) else (y, m - 1).

Definition add_years (k : Z) (d : date) : date :=
  mkdate (year d + k) (month d) (day d).

(** The globals are those of a module loaded on the valid day [date_tc]. *)
Definition loaded (g : globals) : Prop :=
  valid (date_tc g) /\
  previous_month (date_tc g) =
    Some (date_first_day_previous_month g, date_last_day_previous_month g,
          str_last_month g).

(** The integers [lo], [lo + 1], ..., [lo + n - 1]. *)
Definition Zrange (lo : Z) (n : nat) : list Z := (fun i => lo + Z.of_nat i) <$> seq 0 n.

(** The days of month [m] of year [y] are recovered from their ordinals. *)
Definition roundtrip_month (y m : Z) : bool :=
  forallb (fun d => bool_decide (ord2ymd (ymd2ord y m d) = mkdate y m d))
          (Zrange 1 (Z.to_nat (days_in_month y m))).

(** The per-query cost as C4 words it: 0 on a cache hit, and otherwise
    the bytes processed times 5 / 2^40, rounded to 4 decimal places. *)
Definition cost_as_claimed (j : job) : option Q :=
  if decide (Job.cache_hit j = Some true) then Some 0%Q
  else ROUND ((fun b => inject_Z b * (inject_Z 5 / inject_Z (2 ^ 40)))%Q
                <$> Job.total_bytes_processed j) 4.

(** The inclusion test as C6 words it: a finished query job started
    between the first instant of [first_day] and the last of [last_day]. *)
Definition included_as_claimed (first_day last_day : date) (j : job) : Prop :=
  Job.job_type j = Some "QUERY"%string /\ Job.state j = Some "DONE"%string /\
  exists t, Job.start_time j = Some t /\
    timestamp_of_date first_day <= t < timestamp_of_date last_day + MICROS_PER_DAY.

(** The grouping key of a job in the per-project summary. *)
Definition job_group_key (j : job) : group_key :=
  (Job.user_email j, Job.project_id j, month_of j).

(** A comparison function that decides a strict total order. *)
Class CmpOrder {A : Type} (c : A -> A -> comparison) : Prop := {
  cmp_eq : forall x y, c x y = Eq <-> x = y;
  cmp_antisym : forall x y, c y x = CompOpp (c x y);
  cmp_lt_trans : forall x y z, c x y = Lt -> c y z = Lt -> c x z = Lt
}.

(** What [can_insert_data] answers on a world, as a function of the table
    it looks at. *)
Definition gate_outcome (w : world) (table_id key : string) : exn + bool :=
  match failing w (GetTable table_id) with
  | Some e => if decide (e = NotFound) then inr true else inl e
  | None =>
      match bq_tables w !! table_id with
      | None => inr true
      | Some t =>
          match failing w (RunQuery (SelectMonth table_id key)) with
          | Some e => if decide (e = NotFound) then inr true else inl e
          | None => inr (bool_decide (rows_of_month key t = []))
          end
      end
  end.

Definition empty_table : table := {| tbl_loads := [] |}.

(** The world after a load of [df] into [table_id]. *)
Definition loaded_world (table_id : string) (df : DataFrame) (w : world) : world :=
  set_tables <[table_id := append_load df (default empty_table (bq_tables w !! table_id))]> w.

(** The rows of a table of a world, none when it does not exist. *)
Definition rows_at (w : world) (table_id : string) : list row :=
  from_option table_rows [] (bq_tables w !! table_id).

(** The service never answers [NotFound] of its own: that exception is
    raised only for a table that is absent. *)
Definition no_not_found (f : request -> option exn) : Prop :=
  forall r, f r <> Some NotFound.

(** The world [w] with the service refusing the requests [f] says. *)
Definition set_failing (f : request -> option exn) (w : world) : world :=
  {| bq_tables := bq_tables w; bq_jobs := bq_jobs w; cs_blobs := cs_blobs w;
     failing := f |}.

(** The jobs of the metadata that the cost queries of [g] select: the
    finished query jobs started in its period. *)
Definition period_jobs (g : globals) (w : world) : list job :=
  selected (date_first_day_previous_month g) (date_last_day_previous_month g) (bq_jobs w).

(** What the pipeline needs from a report generator of [g]: it only
    reads, every row it returns carries the period key, and where it
    returned an empty frame it returns an empty frame again as long as the
    jobs of the period are the same, unless the service refuses one of
    its requests. *)
Record gen_ok (g : globals) (gen : M DataFrame) : Prop := {
  gen_world : forall w, (gen w).2 = w;
  gen_month : forall w df,
    (gen w).1 = inr df ->
    Forall (fun r => cell "month" r = VString (str_last_month g)) df;
  gen_empty : forall w w',
    period_jobs g w' = period_jobs g w -> (gen w).1 = inr [] ->
    (gen w').1 = inr [] \/ exists r e, failing w' r = Some e /\ (gen w').1 = inl e
}.

(** ** Concrete inputs *)

Section Examples.
#[local] Open Scope string_scope.

(** A finished query job of project "p" and user "u". *)
Definition query_job (id : string) (start : Z) (bytes : Z) (hit : option bool) : job :=
  {| Job.job_id := Some id; Job.job_type := Some "QUERY"; Job.state := Some "DONE";
     Job.start_time := Some start; Job.project_id := Some "p";
     Job.user_email := Some "u"; Job.total_bytes_billed := Some bytes;
     Job.total_bytes_processed := Some bytes; Job.cache_hit := hit |}.

Definition TiB : Z := 1099511627776.

(** 2024-02-10 00:00:00 UTC and 2024-02-29 12:00:00 UTC *)
Definition feb10 : Z := timestamp_of_date (mkdate 2024 2 10).
Definition feb29_noon : Z := timestamp_of_date (mkdate 2024 2 29) + 12 * 3600 * 1000000.

Definition job_null_cache_hit : job := query_job "j0" feb10 TiB None.

(** A query of 2024-03-15, after the period of [globals_march]. *)
Definition job_march_15 : job :=
  query_job "j6" (timestamp_of_date (mkdate 2024 3 15)) TiB (Some false).
Definition job_last_day_noon : job := query_job "j1" feb29_noon TiB (Some false).
Definition jobs_two_tib : list job :=
  [query_job "j2" feb10 TiB (Some false); query_job "j3" feb10 TiB (Some false)].
Definition jobs_small : list job :=
  [query_job "j4" feb10 10995117 (Some false); query_job "j5" feb10 10995117 (Some false)].

Definition environ_example : gmap string string :=
  list_to_map [("PROJECT_ID", "core"); ("BUCKET_NAME", "bucket");
               ("MAIN_TABLE_NAME", "main"); ("BIQUERY_PROJECTS", "p1,p2");
               ("BILLING_PROJECT_ID", "billing"); ("BILLING_DATASET_ID", "reports")].

(** The globals of a module loaded from [environ_example] on 2024-03-15. *)
Definition globals_march : globals :=
  {| project_id := "core"; data_bucket_name := "bucket"; main_table_name := "main";
     bigquery_projects := ["p1"; "p2"];
     billing_project_id := "billing"; billing_dataset_id := "reports";
     date_tc := mkdate 2024 3 15;
     date_last_day_previous_month := mkdate 2024 2 29;
     date_first_day_previous_month := mkdate 2024 2 1;
     str_last_month := "202402" |}.

(** The same module loaded on 2024-04-15. *)
Definition globals_april : globals :=
  {| project_id := "core"; data_bucket_name := "bucket"; main_table_name := "main";
     bigquery_projects := ["p1"; "p2"];
     billing_project_id := "billing"; billing_dataset_id := "reports";
     date_tc := mkdate 2024 4 15;
     date_last_day_previous_month := mkdate 2024 3 31;
     date_first_day_previous_month := mkdate 2024 3 1;
     str_last_month := "202403" |}.

Definition no_failure : request -> option exn := fun _ => None.

Definition tracked_tables : gmap string table :=
  {[ "core.p1.main" := {| tbl_loads := [[[("x", VInt 1)]]] |};
     "core.p2.main" := {| tbl_loads := [] |} ]}.

(** Both tracked tables exist, three blobs, no job, empty billing dataset. *)
Definition world_fresh : world :=
  {| bq_tables := tracked_tables;
     bq_jobs := [];
     cs_blobs := [ {| blob_bucket := "bucket"; blob_name := "p1/a"; blob_size := 10 |};
                   {| blob_bucket := "bucket"; blob_name := "p1/b"; blob_size := 20 |};
                   {| blob_bucket := "bucket"; blob_name := "p1/c"; blob_size := 30 |} ];
     failing := no_failure |}.

(** The storage table already holds a row of February 2024. *)
Definition world_february : world :=
  set_tables <["billing.reports.storage_usage" :=
                 {| tbl_loads := [[[("project", VString "p1"); ("month", VString "202402");
                                    ("cloud_storage_bytes", VInt 60);
                                    ("bigquery_storage_bytes", VInt 1000)]]] |}]>
             world_fresh.

(** As [world_fresh], with two finished queries of February 2024. *)
Definition world_busy : world :=
  {| bq_tables := tracked_tables; bq_jobs := jobs_two_tib; cs_blobs := [];
     failing := no_failure |}.

(** The main table of "p2" is missing. *)
Definition world_missing : world :=
  set_tables (delete "core.p2.main") world_fresh.

(** As [world_february], with the month lookup answered by [NotFound]. *)
Definition world_lookup_not_found : world :=
  set_failing
    (fun r => match r with RunQuery (SelectMonth _ _) => Some NotFound | _ => None end)
    world_february.


End Examples.

(** ** Vocabulary of the further properties *)

(** [sep.join(parts)] for a one-character separator. *)
Fixpoint str_join (sep : ascii) (parts : list string) : string :=
  match parts with
  | [] => EmptyString
  | [x] => x
  | x :: rest => x +:+ String sep (str_join sep rest)
  end.

(** Number of occurrences of a character in a string. *)
Fixpoint count_char (c : ascii) (s : string) : nat :=
  match s with
  | EmptyString => 0
  | String c' rest => (if Ascii.eqb c' c then 1 else 0) + count_char c rest
  end.

(** The six variables the module reads, in the order it reads them. *)
Definition required_vars : list string :=
  ["PROJECT_ID"; "BUCKET_NAME"; "MAIN_TABLE_NAME"; "BIQUERY_PROJECTS";
   "BILLING_PROJECT_ID"; "BILLING_DATASET_ID"]%string.

(** The value of a decimal digit character. *)
Definition digit_value (c : ascii) : Z := Z.of_nat (nat_of_ascii c) - 48.

(** The number a string of decimal digits stands for. *)
Definition decimal_value (s : string) : Z :=
  fold_left (fun acc c => acc * 10 + digit_value c) (list_ascii_of_string s) 0.

(** The blobs of [bucket] whose name starts with [prefix]. *)
Definition blobs_under (w : world) (bucket prefix : string) : list blob :=
  filter (fun b => blob_bucket b = bucket /\ String.prefix prefix (blob_name b))
         (cs_blobs w).

(** The sum of the sizes of a list of blobs. *)
Definition total_size (bs : list blob) : Z :=
  foldr (fun b acc => blob_size b + acc) 0 bs.

(** The row of the storage report for one tracked dataset. *)
Definition storage_row (g : globals) (w : world) (project : string) : row :=
  [ ("project", VString project);
    ("month", VString (str_last_month g));
    ("cloud_storage_bytes", VInt (total_size (blobs_under w (data_bucket_name g) project)));
    ("bigquery_storage_bytes",
       VInt (from_option num_bytes 0 (bq_tables w !! main_table_id g project))) ]%string.

Section MoreExamples.
#[local] Open Scope string_scope.

(** One tracked dataset "p1" whose main table holds 1000 bytes (125 INT64
    cells) and which has three blobs of 10, 20 and 30 bytes; a blob of
    another bucket and a blob of dataset "q". *)
Definition globals_one : globals :=
  {| project_id := "core"; data_bucket_name := "bucket"; main_table_name := "main";
     bigquery_projects := ["p1"];
     billing_project_id := "billing"; billing_dataset_id := "reports";
     date_tc := mkdate 2024 3 15;
     date_last_day_previous_month := mkdate 2024 2 29;
     date_first_day_previous_month := mkdate 2024 2 1;
     str_last_month := "202402" |}.

Definition world_storage : world :=
  {| bq_tables := {[ "core.p1.main" := {| tbl_loads := [replicate 125 [("x", VInt 0)]] |} ]};
     bq_jobs := [];
     cs_blobs := [ {| blob_bucket := "bucket"; blob_name := "p1/a"; blob_size := 10 |};
                   {| blob_bucket := "other"; blob_name := "p1/z"; blob_size := 5 |};
                   {| blob_bucket := "bucket"; blob_name := "p1/b"; blob_size := 20 |};
                   {| blob_bucket := "bucket"; blob_name := "p1/c"; blob_size := 30 |};
                   {| blob_bucket := "bucket"; blob_name := "q/d"; blob_size := 7 |} ];
     failing := no_failure |}.

End MoreExamples.

(** The grouping columns of a row of the per-project summary. *)
Definition summary_key (r : row) : value * value * value :=
  (cell "user_email" r, cell "project_id" r, cell "month" r).

(** The num_queries column of a row, 0 when it is not an integer. *)
Definition num_queries_of (r : row) : Z :=
  match cell "num_queries" r with VInt n => n | _ => 0 end.

Definition total_queries (rows : list row) : Z :=
  foldr (fun r acc => num_queries_of r + acc) 0 rows.

Section FailureExample.
#[local] Open Scope string_scope.


End FailureExample.

(** What a run may do to the world: job metadata, blobs and failing
    requests stay, and a table that exists keeps its loads, followed by at
    most new ones. *)
Definition grows (w w1 : world) : Prop :=
  bq_jobs w1 = bq_jobs w /\ cs_blobs w1 = cs_blobs w /\ failing w1 = failing w /\
  forall table_id t, bq_tables w !! table_id = Some t ->
    exists t1, bq_tables w1 !! table_id = Some t1 /\ tbl_loads t `prefix_of` tbl_loads t1.

(** The rows a run adds to a table. *)
Definition adds_rows_of (key : string) (w w1 : world) : Prop :=
  forall table_id, exists added,
    rows_at w1 table_id = rows_at w table_id ++ added /\
    Forall (fun r => cell "month" r = VString key) added.

(** * Properties *)

(** ** Calendar arithmetic *)


Lemma elem_of_Zrange lo n x : lo <= x < lo + Z.of_nat n -> x ∈ Zrange lo n.
Proof.
  intros Hx. unfold Zrange. apply list_elem_of_fmap.
  exists (Z.to_nat (x - lo)). split; [lia|].
  apply elem_of_seq. lia.
Qed.

Lemma forallb_Zrange (f : Z -> bool) lo n x :
  forallb f (Zrange lo n) = true -> lo <= x < lo + Z.of_nat n -> f x = true.
Proof.
  intros H Hx. rewrite forallb_forall in H. apply H.
  apply list_elem_of_In. by apply elem_of_Zrange.
Qed.

(** Exhaustive check of the ordinal round trip over one 400-year cycle. *)
Lemma roundtrip_400_true :
  forallb (fun y => forallb (fun m => roundtrip_month y m) (Zrange 1 12)) (Zrange 1 400)
    = true.
Proof. vm_compute. reflexivity. Qed.

Lemma is_leap_period y : is_leap (y + 400) = is_leap y.
Proof.
  unfold is_leap.
  replace (y + 400) with (y + 100 * 4) at 1 by lia.
  replace (y + 400) with (y + 4 * 100) at 1 by lia.
  replace (y + 400) with (y + 1 * 400) by lia.
  by rewrite !Z_mod_plus_full.
Qed.

Lemma days_before_year_period y : days_before_year (y + 400) = days_before_year y + DI400Y.
Proof. unfold days_before_year, DI400Y. Z.div_mod_to_equations. lia. Qed.

Lemma ymd2ord_period y m d : ymd2ord (y + 400) m d = ymd2ord y m d + DI400Y.
Proof.
  unfold ymd2ord, days_before_month.
  rewrite days_before_year_period, is_leap_period. lia.
Qed.

Lemma days_in_month_period y m : days_in_month (y + 400) m = days_in_month y m.
Proof. unfold days_in_month. by rewrite is_leap_period. Qed.

Lemma ord2ymd_period n : ord2ymd (n + DI400Y) = add_years 400 (ord2ymd n).
Proof.
  unfold ord2ymd.
  replace (n + DI400Y - 1) with (n - 1 + 1 * DI400Y) by lia.
  rewrite Z_div_plus_full, Z_mod_plus_full by (unfold DI400Y; lia).
  cbv zeta. unfold add_years.
  repeat match goal with |- context [if ?b then _ else _] => destruct b end;
    cbn [year month day]; f_equal; lia.
Qed.

Lemma ord2ymd_ymd2ord_400 y m d :
  1 <= y <= 400 -> 1 <= m <= 12 -> 1 <= d <= days_in_month y m ->
  ord2ymd (ymd2ord y m d) = mkdate y m d.
Proof.
  intros Hy Hm Hd.
  pose proof (forallb_Zrange _ 1 400 y roundtrip_400_true ltac:(lia)) as H1.
  pose proof (forallb_Zrange (fun m => roundtrip_month y m) 1 12 m H1 ltac:(lia)) as H2.
  unfold roundtrip_month in H2.
  pose proof (forallb_Zrange _ 1 (Z.to_nat (days_in_month y m)) d H2 ltac:(lia)) as H3.
  by apply bool_decide_eq_true in H3.
Qed.

(** [date.fromordinal(d.toordinal()) == d] *)
Lemma ord2ymd_ymd2ord y m d :
  1 <= y -> 1 <= m <= 12 -> 1 <= d <= days_in_month y m ->
  ord2ymd (ymd2ord y m d) = mkdate y m d.
Proof.
  intros Hy Hm Hd.
  assert (Hk : exists k y0, 0 <= k /\ 1 <= y0 <= 400 /\ y = y0 + 400 * k).
  { exists ((y - 1) / 400), ((y - 1) mod 400 + 1). Z.div_mod_to_equations. lia. }
  destruct Hk as (k & y0 & Hk & Hy0 & ->). clear Hy.
  revert Hd. pattern k. apply natlike_ind; [| |exact Hk].
  - rewrite Z.mul_0_r, Z.add_0_r. intros. by apply ord2ymd_ymd2ord_400.
  - intros x Hx IH Hd.
    replace (y0 + 400 * Z.succ x) with (y0 + 400 * x + 400) in * by lia.
    rewrite days_in_month_period in Hd.
    rewrite ymd2ord_period, ord2ymd_period, IH by done.
    unfold add_years. done.
Qed.


Lemma days_before_year_succ y :
  days_before_year (y + 1) = days_before_year y + 365 + (if is_leap y then 1 else 0).
Proof.
  unfold days_before_year, is_leap.
  replace (y + 1 - 1) with y by lia.
  destruct (Z.eqb_spec (y mod 4) 0), (Z.eqb_spec (y mod 100) 0),
    (Z.eqb_spec (y mod 400) 0); cbn [andb orb negb];
    Z.div_mod_to_equations; lia.
Qed.

Lemma month_cases m :
  1 <= m <= 12 ->
  m = 1 \/ m = 2 \/ m = 3 \/ m = 4 \/ m = 5 \/ m = 6 \/
  m = 7 \/ m = 8 \/ m = 9 \/ m = 10 \/ m = 11 \/ m = 12.
Proof. lia. Qed.

Ltac norm_sub :=
  repeat match goal with
  | |- context [Z.pos ?a - Z.pos ?b] =>
      let v := eval compute in (Z.pos a - Z.pos b) in
      change (Z.pos a - Z.pos b) with v
  end.

Ltac each_month H :=
  apply month_cases in H;
  repeat (destruct H as [H|H]; [subst|]); [..|subst].

Lemma days_in_month_range y m : 1 <= m <= 12 -> 28 <= days_in_month y m <= 31.
Proof.
  intros Hm. unfold days_in_month. each_month Hm;
    destruct (is_leap y); cbn; lia.
Qed.

Lemma month_before_range y m :
  1 <= m <= 12 -> 1 <= (month_before y m).2 <= 12.
Proof. intros Hm. unfold month_before. destruct (Z.eqb_spec m 1); cbn; lia. Qed.

(** Day 0 of a month is the last day of the month before. *)
Lemma ymd2ord_day0 y m :
  1 <= m <= 12 ->
  ymd2ord y m 0 =
    ymd2ord (month_before y m).1 (month_before y m).2
            (days_in_month (month_before y m).1 (month_before y m).2).
Proof.
  intros Hm. unfold month_before.
  destruct (Z.eqb_spec m 1) as [->|Hne]; cbn [fst snd].
  - unfold ymd2ord, days_before_month, days_in_month.
    pose proof (days_before_year_succ (y - 1)) as H.
    replace (y - 1 + 1) with y in H by lia.
    destruct (is_leap (y - 1)); cbn in *; lia.
  - unfold ymd2ord, days_before_month, days_in_month.
    each_month Hm; try done; norm_sub; destruct (is_leap y); cbn; lia.
Qed.

Lemma ymd2ord_bounds y m d :
  1 <= y <= MAXYEAR -> 1 <= m <= 12 -> 1 <= d <= days_in_month y m ->
  1 <= ymd2ord y m d <= MAXORDINAL.
Proof.
  intros Hy Hm Hd.
  assert (ymd2ord y m d <= days_before_year (y + 1)) as Hle.
  { rewrite days_before_year_succ.
    unfold ymd2ord, days_before_month, days_in_month in *.
    each_month Hm; destruct (is_leap y); cbn in *; lia. }
  assert (days_before_year y + 1 <= ymd2ord y m d) as Hge.
  { unfold ymd2ord, days_before_month.
    each_month Hm; destruct (is_leap y); cbn; lia. }
  unfold MAXYEAR, MAXORDINAL in *. unfold days_before_year in *.
  Z.div_mod_to_equations. lia.
Qed.

Lemma sub_days_ymd y m d n :
  1 <= y <= MAXYEAR -> 1 <= m <= 12 -> 1 <= d - n <= days_in_month y m ->
  sub_days (mkdate y m d) n = Some (mkdate y m (d - n)).
Proof.
  intros Hy Hm Hd. unfold sub_days, toordinal. cbn [year month day].
  replace (ymd2ord y m d - n) with (ymd2ord y m (d - n)) by (unfold ymd2ord; lia).
  pose proof (ymd2ord_bounds y m (d - n) Hy Hm Hd) as Hb.
  rewrite ord2ymd_ymd2ord by lia.
  destruct (Z.ltb_spec 0 (ymd2ord y m (d - n))); [|lia].
  destruct (Z.leb_spec (ymd2ord y m (d - n)) MAXORDINAL); [done|lia].
Qed.

(** Subtracting its day of the month from a date gives the last day of
    the month before, unless that month is before year 1. *)
Lemma sub_days_day today :
  valid today -> (year today, month today) <> (1, 1) ->
  sub_days today (day today) =
    Some (mkdate (month_before (year today) (month today)).1
                 (month_before (year today) (month today)).2
                 (days_in_month (month_before (year today) (month today)).1
                                (month_before (year today) (month today)).2)).
Proof.
  destruct today as [y m d]. unfold valid, MINYEAR. cbn [year month day].
  intros (Hy & Hm & Hd) Hne.
  unfold sub_days, toordinal. cbn [year month day].
  replace (ymd2ord y m d - d) with (ymd2ord y m 0) by (unfold ymd2ord; lia).
  rewrite ymd2ord_day0 by done.
  pose proof (month_before_range y m Hm) as Hpm.
  assert (1 <= (month_before y m).1 <= MAXYEAR) as Hpy.
  { unfold month_before, MAXYEAR in *. destruct (Z.eqb_spec m 1); cbn; [|lia].
    assert (y <> 1) by congruence. lia. }
  pose proof (days_in_month_range (month_before y m).1 _ Hpm) as Hdim.
  pose proof (ymd2ord_bounds _ _ (days_in_month (month_before y m).1 (month_before y m).2)
                Hpy Hpm ltac:(lia)) as Hb.
  rewrite ord2ymd_ymd2ord by lia.
  destruct (Z.ltb_spec 0 (ymd2ord (month_before y m).1 (month_before y m).2
    (days_in_month (month_before y m).1 (month_before y m).2))); [|lia].
  match goal with |- context [?a <=? MAXORDINAL] =>
    destruct (Z.leb_spec a MAXORDINAL); [done|lia] end.
Qed.

Lemma previous_month_eq today :
  valid today -> (year today, month today) <> (1, 1) ->
  previous_month today =
    let py := (month_before (year today) (month today)).1 in
    let pm := (month_before (year today) (month today)).2 in
    Some (mkdate py pm 1, mkdate py pm (days_in_month py pm), year_str py +:+ pad2 pm).
Proof.
  intros Hv Hne. unfold previous_month.
  rewrite sub_days_day by done. cbn [day].
  destruct Hv as (Hy & Hm & Hd).
  pose proof (month_before_range (year today) _ Hm) as Hpm.
  set (py := (month_before (year today) (month today)).1) in *.
  set (pm := (month_before (year today) (month today)).2) in *.
  assert (1 <= py <= MAXYEAR) as Hpy.
  { subst py. unfold month_before, MAXYEAR, MINYEAR in *.
    destruct (Z.eqb_spec (month today) 1) as [E|E]; cbn; [|lia].
    assert (year today <> 1) by (intros E'; apply Hne; by rewrite E, E'). lia. }
  pose proof (days_in_month_range py pm Hpm).
  rewrite sub_days_ymd by lia.
  cbv zeta. replace (days_in_month py pm - (days_in_month py pm - 1)) with 1 by lia.
  done.
Qed.

(** ** The reporting period *)

Lemma module_init_loaded environ today g :
  valid today -> module_init environ today = inr g -> loaded g.
Proof.
  intros Hv. unfold module_init.
  repeat match goal with |- context [getenv ?e ?k] => destruct (getenv e k) end;
    try discriminate.
  destruct (previous_month today) as [[[f l] k]|] eqn:E; [|discriminate].
  intros [= <-]. split; [done|]. exact E.
Qed.

Lemma loaded_period g :
  loaded g -> (year (date_tc g), month (date_tc g)) <> (1, 1) ->
  let py := (month_before (year (date_tc g)) (month (date_tc g))).1 in
  let pm := (month_before (year (date_tc g)) (month (date_tc g))).2 in
  date_first_day_previous_month g = mkdate py pm 1 /\
  date_last_day_previous_month g = mkdate py pm (days_in_month py pm) /\
  str_last_month g = year_str py +:+ pad2 pm.
Proof.
  intros [Hv Hp] Hne. rewrite previous_month_eq in Hp by done.
  cbv zeta in Hp. by injection Hp as <- <- <-.
Qed.

(** In January of year 1 the module fails to load, so a loaded module has
    a previous month. *)
Lemma loaded_not_first_month g :
  loaded g -> (year (date_tc g), month (date_tc g)) <> (1, 1).
Proof.
  intros [Hv Hp] E. injection E as Ey Em.
  destruct (date_tc g) as [y m d]. cbn [year month day] in *. subst.
  unfold previous_month, sub_days, toordinal in Hp. cbn [year month day] in Hp.
  replace (ymd2ord 1 1 d - d) with 0 in Hp
    by (unfold ymd2ord; change (days_before_year 1 + days_before_month 1 1) with 0; lia).
  cbn in Hp. discriminate.
Qed.

Lemma digit_value_digit n : 0 <= n -> digit_value (digit n) = n mod 10.
Proof.
  intros Hn. unfold digit_value, digit.
  rewrite nat_ascii_embedding.
  - Z.div_mod_to_equations. lia.
  - assert (0 <= n mod 10 < 10) by (apply Z.mod_pos_bound; lia). lia.
Qed.

(** The key reads as the decimal number year * 100 + month. *)
Lemma decimal_value_key y m :
  0 <= y <= 9999 -> 0 <= m <= 99 ->
  decimal_value (year_str y +:+ pad2 m) = y * 100 + m.
Proof.
  intros Hy Hm. unfold decimal_value, year_str, pad4, pad2.
  destruct (Z.ltb_spec y 10); [|destruct (Z.ltb_spec y 100); [|destruct (Z.ltb_spec y 1000)]];
    cbv [String.append list_ascii_of_string fold_left];
    rewrite !digit_value_digit by (Z.div_mod_to_equations; lia);
    Z.div_mod_to_equations; lia.
Qed.

(** From year 1000 on the year is printed with four digits. *)
Lemma year_str_pad4 y : 1000 <= y -> year_str y = pad4 y.
Proof.
  intros Hy. unfold year_str.
  destruct (Z.ltb_spec y 10); [lia|]. destruct (Z.ltb_spec y 100); [lia|].
  destruct (Z.ltb_spec y 1000); [lia|done].
Qed.

(** C3 (as amended). For every valid date [today] from 0001-02-01 on, the
    period is computed without error: [last_day] is [today] minus its day
    of the month, which is the last day of the previous month, [first_day]
    is [last_day] minus its day of the month less one, which is the first
    day of the previous month, and the key is [first_day.strftime('%Y%m')]:
    the year as the runtime prints it, without leading zeros, followed by
    the two digits of the month. The key reads as the number
    year * 100 + month, and it is the six characters YYYYMM when the year
    of [first_day] is 1000 or later. 2024-03-15 gives 2024-02-01,
    2024-02-29 and "202402"; 2024-01-01 gives 2023-12-01, 2023-12-31 and
    "202312". *)
Theorem previous_month_correct (today : date) :
  valid today -> (year today, month today) <> (1, 1) ->
  exists first_day last_day,
    sub_days today (day today) = Some last_day /\
    sub_days last_day (day last_day - 1) = Some first_day /\
    previous_month today = Some (first_day, last_day, strftime_Ym first_day) /\
    toordinal last_day = toordinal today - day today /\
    toordinal first_day = toordinal last_day - (day last_day - 1) /\
    (year last_day, month last_day) = month_before (year today) (month today) /\
    day last_day = days_in_month (year last_day) (month last_day) /\
    (year first_day, month first_day) = month_before (year today) (month today) /\
    day first_day = 1 /\
    strftime_Ym first_day = year_str (year first_day) +:+ pad2 (month first_day) /\
    decimal_value (strftime_Ym first_day) = year first_day * 100 + month first_day /\
    (1000 <= year first_day ->
       strftime_Ym first_day = pad4 (year first_day) +:+ pad2 (month first_day) /\
       String.length (strftime_Ym first_day) = 6%nat) /\
    previous_month (mkdate 2024 3 15) =
      Some (mkdate 2024 2 1, mkdate 2024 2 29, "202402"%string) /\
    previous_month (mkdate 2024 1 1) =
      Some (mkdate 2023 12 1, mkdate 2023 12 31, "202312"%string).
Proof.
  intros Hv Hne.
  pose proof (previous_month_eq today Hv Hne) as Hp. cbv zeta in Hp.
  pose proof (sub_days_day today Hv Hne) as Hl.
  pose proof (month_before_range (year today) (month today)
                ltac:(by destruct Hv as (_ & ? & _))) as Hpm.
  assert (1 <= (month_before (year today) (month today)).1 <= 9999) as Hpy.
  { destruct Hv as (Hy & Hm & _). unfold month_before, MINYEAR, MAXYEAR in *.
    destruct (Z.eqb_spec (month today) 1) as [E|E]; cbn; [|lia].
    assert (year today <> 1) by (intros E'; apply Hne; by rewrite E, E'). lia. }
  set (py := (month_before (year today) (month today)).1) in *.
  set (pm := (month_before (year today) (month today)).2) in *.
  assert (sub_days (mkdate py pm (days_in_month py pm)) (days_in_month py pm - 1)
          = Some (mkdate py pm 1)) as Hf.
  { unfold previous_month in Hp. rewrite Hl in Hp. cbn [day] in Hp.
    destruct (sub_days _ _) as [f|]; [|discriminate]. by injection Hp as ->. }
  exists (mkdate py pm 1), (mkdate py pm (days_in_month py pm)).
  cbn [year month day].
  split_and!; try done.
  - unfold toordinal. cbn [year month day]. subst py pm.
    rewrite <- ymd2ord_day0 by (destruct Hv as (_ & ? & _); done).
    unfold ymd2ord. lia.
  - unfold toordinal, ymd2ord. cbn [year month day]. lia.
  - subst py pm. by destruct (month_before _ _).
  - subst py pm. by destruct (month_before _ _).
  - unfold strftime_Ym. cbn [year month]. apply decimal_value_key; lia.
  - intros Hy. unfold strftime_Ym. cbn [year month]. by rewrite year_str_pad4.
Qed.

Lemma previous_month_correct_witness :
  exists first_day last_day,
    previous_month (mkdate 2024 3 15) = Some (first_day, last_day, strftime_Ym first_day) /\
    toordinal last_day = toordinal (mkdate 2024 3 15) - 15 /\
    (year last_day, month last_day) = (2024, 2) /\
    day first_day = 1 /\
    decimal_value (strftime_Ym first_day) = 202402.
Proof.
  destruct (previous_month_correct (mkdate 2024 3 15)) as
    (f & l & _ & _ & Hp & Hl & _ & Hlm & _ & Hfm & Hf & _ & Hk & _).
  - unfold valid. repeat split; by vm_compute.
  - by vm_compute.
  - exists f, l. split; [exact Hp|]. split; [exact Hl|]. split; [exact Hlm|].
    split; [exact Hf|]. rewrite Hk. injection Hfm as -> ->. reflexivity.
Defined.

(** C3 as stated fails in January of year 1, a valid date: the day before
    0001-01-01 is not a [date], the subtraction raises OverflowError and
    the module does not load. It also fails where the key is said to be
    YYYYMM: the year of a date before year 1000 is printed without leading
    zeros, so that the key of 1000-01-01 is "99912" and that of 0001-02-01
    is "101". *)
Lemma previous_month_year_one :
  valid (mkdate 1 1 15) /\
  sub_days (mkdate 1 1 15) (day (mkdate 1 1 15)) = None /\
  previous_month (mkdate 1 1 15) = None /\
  module_init environ_example (mkdate 1 1 15) = inl OverflowError /\
  valid (mkdate 1000 1 1) /\
  previous_month (mkdate 1000 1 1)
    = Some (mkdate 999 12 1, mkdate 999 12 31, "99912"%string) /\
  valid (mkdate 1 2 1) /\
  previous_month (mkdate 1 2 1) = Some (mkdate 1 1 1, mkdate 1 1 31, "101"%string).
Proof.
  split; [unfold valid; repeat split; by vm_compute|].
  split_and!; try (by vm_compute); unfold valid; repeat split; by vm_compute.
Qed.

(** Midnight of a day, and the day of a timestamp. *)
Lemma DATE_between py pm t :
  1 <= py -> 1 <= pm <= 12 ->
  timestamp_of_date (mkdate py pm 1) <= t <=
    timestamp_of_date (mkdate py pm (days_in_month py pm)) ->
  exists d, 1 <= d <= days_in_month py pm /\ DATE (Some t) = Some (mkdate py pm d).
Proof.
  intros Hy Hm Ht. unfold timestamp_of_date, toordinal in Ht.
  cbn [year month day] in Ht.
  exists (EPOCH_ORDINAL + t / MICROS_PER_DAY - ymd2ord py pm 0).
  assert (ymd2ord py pm 1 <= EPOCH_ORDINAL + t / MICROS_PER_DAY
          <= ymd2ord py pm (days_in_month py pm)) as Ho.
  { revert Ht. generalize (ymd2ord py pm 1), (ymd2ord py pm (days_in_month py pm)).
    intros a b. unfold MICROS_PER_DAY, EPOCH_ORDINAL.
    change (86400 * 1000000) with 86400000000.
    Z.div_mod_to_equations. lia. }
  split; [unfold ymd2ord in *; lia|].
  cbn [DATE fmap option_fmap option_map]. f_equal.
  rewrite <- (ord2ymd_ymd2ord py pm) by (unfold ymd2ord in *; lia).
  f_equal. unfold ymd2ord. lia.
Qed.

(** What the WHERE clause of the cost queries keeps. *)
Lemma where_jobs_true first_day last_day j :
  is_true (where_jobs first_day last_day j) = true <->
  Job.job_type j = Some "QUERY"%string /\ Job.state j = Some "DONE"%string /\
  exists t, Job.start_time j = Some t /\
    timestamp_of_date first_day <= t <= timestamp_of_date last_day.
Proof.
  unfold where_jobs, sql_eq_string, sql_between.
  destruct (Job.job_type j) as [ty|], (Job.state j) as [st|],
    (Job.start_time j) as [t|]; cbn [fmap option_fmap option_map];
    repeat match goal with
    | |- context [String.eqb ?a ?b] => destruct (String.eqb_spec a b)
    | |- context [Z.leb ?a ?b] => destruct (Z.leb_spec a b)
    end; cbn; split; try discriminate; try done;
    try (intros (? & ? & ? & ? & ?); simplify_eq; lia);
    try (intros (? & ? & ? & ? & ?); simplify_eq; done).
  all: intros _; split_and!; try congruence; eexists; split; [done|lia].
Qed.

(** Every job the WHERE clause keeps is dated in the reporting month. *)
Lemma where_jobs_month g j :
  loaded g ->
  is_true (where_jobs (date_first_day_previous_month g)
                      (date_last_day_previous_month g) j) = true ->
  month_of j = Some (str_last_month g).
Proof.
  intros Hl Hw.
  pose proof (loaded_not_first_month g Hl) as Hne.
  destruct (loaded_period g Hl Hne) as (Hf & Hla & Hk). cbv zeta in *.
  rewrite Hf, Hla in Hw. rewrite Hk. clear Hf Hla Hk.
  destruct Hl as [(Hy & Hm & Hd) _].
  pose proof (month_before_range (year (date_tc g)) _ Hm) as Hpm.
  set (py := (month_before (year (date_tc g)) (month (date_tc g))).1) in *.
  set (pm := (month_before (year (date_tc g)) (month (date_tc g))).2) in *.
  assert (1 <= py) as Hpy.
  { subst py. unfold month_before, MINYEAR in *.
    destruct (Z.eqb_spec (month (date_tc g)) 1) as [E|E]; cbn; [|lia].
    assert (year (date_tc g) <> 1) by (intros E'; apply Hne; by rewrite E, E'). lia. }
  apply where_jobs_true in Hw as (_ & _ & t & Ht & Hb).
  unfold month_of. rewrite Ht.
  destruct (DATE_between py pm t Hpy Hpm Hb) as (d & Hd' & ->).
  done.
Qed.

(** ** ORDER BY *)

#[global] Instance Z_compare_order : CmpOrder Z.compare.
Proof.
  split.
  - apply Z.compare_eq_iff.
  - intros x y. apply Z.compare_antisym.
  - intros x y z. rewrite !Z.compare_lt_iff. lia.
Qed.

#[global] Instance string_compare_order : CmpOrder String.compare.
Proof.
  split.
  - intros x y. apply String_as_OT.cmp_eq.
  - intros x y. apply String.compare_antisym.
  - intros x y z Hxy Hyz.
    apply String_as_OT.cmp_lt in Hxy, Hyz. apply String_as_OT.cmp_lt.
    eapply String_as_OT.lt_trans; eassumption.
Qed.

#[global] Instance cmp_option_order {A} (c : A -> A -> comparison) :
  CmpOrder c -> CmpOrder (cmp_option c).
Proof.
  intros Hc. split.
  - intros [x|] [y|]; cbn; try (split; congruence).
    rewrite cmp_eq. split; congruence.
  - intros [x|] [y|]; cbn; try done. apply cmp_antisym.
  - intros [x|] [y|] [z|]; cbn; try done. apply cmp_lt_trans.
Qed.

#[global] Instance cmp_pair_order {A B} (ca : A -> A -> comparison)
    (cb : B -> B -> comparison) :
  CmpOrder ca -> CmpOrder cb -> CmpOrder (cmp_pair ca cb).
Proof.
  intros Ha Hb. split.
  - intros [a1 b1] [a2 b2]. unfold cmp_pair. cbn [fst snd].
    destruct (ca a1 a2) eqn:E.
    + apply cmp_eq in E as ->. rewrite cmp_eq. split; congruence.
    + split; [done|]. intros [= -> _].
      assert (ca a2 a2 = Eq) by by apply cmp_eq. congruence.
    + split; [done|]. intros [= -> _].
      assert (ca a2 a2 = Eq) by by apply cmp_eq. congruence.
  - intros [a1 b1] [a2 b2]. unfold cmp_pair. cbn [fst snd].
    rewrite (cmp_antisym (c:=ca) a1 a2).
    destruct (ca a1 a2); cbn; try done. apply cmp_antisym.
  - intros [a1 b1] [a2 b2] [a3 b3]. unfold cmp_pair. cbn [fst snd].
    destruct (ca a1 a2) eqn:E12; try done.
    + apply cmp_eq in E12 as ->. destruct (ca a2 a3); try done. apply cmp_lt_trans.
    + destruct (ca a2 a3) eqn:E23; try done.
      * apply cmp_eq in E23 as ->. by rewrite E12.
      * by rewrite (cmp_lt_trans (c:=ca) _ _ _ E12 E23).
Qed.

Section CmpLe.

Context {A : Type} (c : A -> A -> comparison) `{!CmpOrder c}.

Lemma cmp_le_total x y : c x y <> Gt \/ c y x <> Gt.
Proof. rewrite (cmp_antisym (c:=c) x y). destruct (c x y); cbn; auto. Qed.

Lemma cmp_le_trans x y z : c x y <> Gt -> c y z <> Gt -> c x z <> Gt.
Proof.
  intros Hxy Hyz.
  destruct (c x y) eqn:E12; [| |done].
  - apply cmp_eq in E12 as ->. done.
  - destruct (c y z) eqn:E23; [| |done].
    + apply cmp_eq in E23 as <-. by rewrite E12.
    + by rewrite (cmp_lt_trans (c:=c) _ _ _ E12 E23).
Qed.

End CmpLe.

#[global] Instance order_key_cmp_order : CmpOrder order_key_cmp.
Proof. unfold order_key_cmp. apply _. Qed.

#[global] Instance job_le_total : Total job_le.
Proof. intros i j. apply (cmp_le_total order_key_cmp). Qed.

#[global] Instance job_le_trans : Transitive job_le.
Proof. intros i j k. apply (cmp_le_trans order_key_cmp). Qed.

Lemma row_order_key_detail j : row_order_key (detail_select j) = job_order_key j.
Proof.
  unfold row_order_key, job_order_key, detail_select.
  by destruct (Job.project_id j), (Job.start_time j), (Job.user_email j).
Qed.

(** C7. The rows of the per-query detail report are in ascending order of
    (project_id, start_time, user_email), NULLs first, whatever the order
    of the job metadata; they are the rows of the selected jobs. *)
Theorem costs_detail_sorted first_day last_day (jobs : list job) :
  StronglySorted row_le (costs_detail_query first_day last_day jobs) /\
  costs_detail_query first_day last_day jobs
    ≡ₚ detail_select <$> selected first_day last_day jobs.
Proof.
  unfold costs_detail_query. split.
  - apply (StronglySorted_fmap detail_select job_le row_le).
    + intros i j Hij. unfold row_le. by rewrite !row_order_key_detail.
    + apply StronglySorted_merge_sort; apply _.
  - apply fmap_Permutation, merge_sort_Permutation.
Qed.

(** Three jobs given latest first come out earliest first. *)
Example costs_detail_sorted_example :
  cell "start_time" <$>
    costs_detail_query (mkdate 2024 2 1) (mkdate 2024 2 29)
      [query_job "c" (feb10 + 2) 1 None; query_job "b" (feb10 + 1) 1 None;
       query_job "a" feb10 1 None]
  = [VTimestamp feb10; VTimestamp (feb10 + 1); VTimestamp (feb10 + 2)].
Proof. reflexivity. Qed.

(** ** Costs *)

(** C4 as stated fails on a job whose cache_hit is NULL: both reports
    price it 0, while the claimed formula gives 5 for one TiB. *)
Lemma cost_not_as_claimed :
  is_true (where_jobs (mkdate 2024 2 1) (mkdate 2024 2 29) job_null_cache_hit) = true /\
  Job.cache_hit job_null_cache_hit <> Some true /\
  cell "cost_in_dollar" (detail_select job_null_cache_hit) = VFloat 0 /\
  c_cost_in_dollar (costs_select job_null_cache_hit) = Some 0%Q /\
  float_eq (cost_as_claimed job_null_cache_hit) (Some 5%Q) /\
  ~ float_eq (cost_in_dollar job_null_cache_hit) (cost_as_claimed job_null_cache_hit).
Proof.
  split_and!; done.
Qed.

(** C4 (as amended). In both cost reports the cost of a job is 0 when
    cache_hit is true or NULL, and when cache_hit is false it is the bytes
    processed times 5 / 2^40 rounded to 4 decimal places (NULL when the
    bytes processed are NULL). *)
Theorem cost_in_dollar_cases (j : job) :
  cell "cost_in_dollar" (detail_select j) = vfloat (cost_in_dollar j) /\
  c_cost_in_dollar (costs_select j) = cost_in_dollar j /\
  cost_in_dollar j =
    match Job.cache_hit j with
    | Some false =>
        ROUND ((fun b => inject_Z b * (inject_Z 5 / inject_Z (2 ^ 40)))%Q
                 <$> Job.total_bytes_processed j) 4
    | Some true | None => Some 0%Q
    end.
Proof.
  split_and!; try done.
  unfold cost_in_dollar.
  destruct (Job.cache_hit j) as [[]|]; try done.
Qed.

(** C10. A job whose cache_hit is NULL costs 0 in both cost reports,
    whatever its bytes processed: [cache_hit != true] is NULL, so the IF
    takes its else branch, as it does for a cache hit. *)
Theorem cost_null_cache_hit (j : job) :
  Job.cache_hit j = None ->
  sql_neq_bool (Job.cache_hit j) true = None /\
  cost_in_dollar j = Some 0%Q /\
  cell "cost_in_dollar" (detail_select j) = VFloat 0 /\
  c_cost_in_dollar (costs_select j) = Some 0%Q /\
  forall j', Job.cache_hit j' = Some true -> cost_in_dollar j' = cost_in_dollar j.
Proof.
  intros Hn. unfold detail_select, costs_select, cost_in_dollar. cbn.
  rewrite Hn. split_and!; try done.
  by intros j' ->.
Qed.

Lemma cost_null_cache_hit_witness :
  cost_in_dollar job_null_cache_hit = Some 0%Q /\
  cell "cost_in_dollar" (detail_select job_null_cache_hit) = VFloat 0.
Proof.
  destruct (cost_null_cache_hit job_null_cache_hit eq_refl) as (_ & H1 & H2 & _).
  exact (conj H1 H2).
Defined.

(** A value with 4 decimal places is left as it is by [ROUND(_, 4)]. *)
Lemma ROUND_4dp (k : Z) (c : Q) :
  (c == k # 10000)%Q -> float_eq (ROUND (Some c) 4) (Some c).
Proof.
  intros Hc. cbn [ROUND fmap option_fmap option_map float_eq].
  rewrite Hc at 2.
  change (Pos.of_nat (10 ^ 4)) with 10000%positive.
  change (10 ^ Z.of_nat 4) with 10000.
  assert (round_half_away (c * inject_Z 10000) = k) as ->; [|reflexivity].
  assert ((c * inject_Z 10000 == inject_Z k)%Q) as E.
  { rewrite Hc. unfold Qeq, Qmult, inject_Z. cbn [Qnum Qden].
    change (Z.pos (10000 * 1)) with 10000%Z. clear. lia. }
  unfold round_half_away.
  rewrite E.
  destruct (Qle_bool 0 (inject_Z k)) eqn:Hs.
  - rewrite E. unfold Qfloor, Qplus, inject_Z. cbn. Z.div_mod_to_equations. lia.
  - rewrite E. unfold Qfloor, Qplus, Qopp, inject_Z. cbn. Z.div_mod_to_equations. lia.
Qed.

Lemma cost_in_dollar_rounded (j : job) :
  float_eq (ROUND (cost_in_dollar j) 4) (cost_in_dollar j).
Proof.
  unfold cost_in_dollar.
  destruct (sql_neq_bool (Job.cache_hit j) true) as [[]|]; cbn [sql_if];
    try (by apply (ROUND_4dp 0)).
  destruct (sql_mul _ _) as [q|]; [|done].
  eapply ROUND_4dp. cbn [ROUND fmap option_fmap option_map]. reflexivity.
Qed.

Lemma filter_fmap_comm {A B} (f : A -> B) (P : B -> Prop) `{!forall b, Decision (P b)}
    (l : list A) :
  filter P (f <$> l) = f <$> filter (fun a => P (f a)) l.
Proof.
  induction l as [|a l IH]; [done|].
  cbn [fmap list_fmap]. rewrite !filter_cons. rewrite IH.
  by destruct (decide (P (f a))).
Qed.

Lemma vstr_inj (a b : option string) : vstr a = vstr b -> a = b.
Proof. destruct a, b; cbn; congruence. Qed.

(** The groups of the summary are the classes of the selected jobs. *)
Lemma group_of_selected first_day last_day jobs (k : group_key) :
  group_of k (costs_subquery first_day last_day jobs)
    = costs_select <$>
        filter (fun j => job_group_key j = k) (selected first_day last_day jobs).
Proof. apply (filter_fmap_comm costs_select). Qed.

(** C5. The per-project summary has, for every group of selected jobs
    with the same (user_email, project_id, month), exactly one row with
    these three values. Its cost_in_dollar is the sum of the per-query
    costs of the group, each of them already rounded to 4 decimal places,
    rounded to 4 decimal places; its bytes_processed_in_gb is the sum of
    the bytes billed of the group, divided by 2^30 and then rounded to 2
    decimal places; its num_queries is the size of the group. The summary
    has no other rows and no row twice. *)
Theorem per_project_rounding first_day last_day (jobs : list job) :
  (forall j, j ∈ selected first_day last_day jobs ->
     let grp :=
       filter (fun i => job_group_key i = job_group_key j)
              (selected first_day last_day jobs) in
     j ∈ grp /\
     Forall (fun i => float_eq (ROUND (cost_in_dollar i) 4) (cost_in_dollar i)) grp /\
     exists r,
       r ∈ costs_per_project_query first_day last_day jobs /\
       cell "user_email" r = vstr (Job.user_email j) /\
       cell "project_id" r = vstr (Job.project_id j) /\
       cell "month" r = vstr (month_of j) /\
       cell "cost_in_dollar" r = vfloat (ROUND (SUM_float (cost_in_dollar <$> grp)) 4) /\
       cell "bytes_processed_in_gb" r =
         vfloat (ROUND (sql_div (SUM_int (Job.total_bytes_billed <$> grp))
                                (Some (2 ^ 30))) 2) /\
       cell "num_queries" r = VInt (Z.of_nat (length grp)) /\
       forall r', r' ∈ costs_per_project_query first_day last_day jobs ->
         cell "user_email" r' = cell "user_email" r ->
         cell "project_id" r' = cell "project_id" r ->
         cell "month" r' = cell "month" r ->
         r' = r) /\
  (forall r, r ∈ costs_per_project_query first_day last_day jobs ->
     exists j, j ∈ selected first_day last_day jobs /\
       cell "user_email" r = vstr (Job.user_email j) /\
       cell "project_id" r = vstr (Job.project_id j) /\
       cell "month" r = vstr (month_of j)) /\
  NoDup (costs_per_project_query first_day last_day jobs).
Proof.
  unfold costs_per_project_query. cbv zeta. split_and!.
  - intros j Hj. split_and!.
    + apply list_elem_of_filter. done.
    + apply Forall_forall. intros i _. apply cost_in_dollar_rounded.
    + exists (per_project_select (job_group_key j)
                (group_of (job_group_key j) (costs_subquery first_day last_day jobs))).
      split_and!.
      * apply list_elem_of_fmap. exists (job_group_key j). split; [done|].
        apply elem_of_remove_dups. unfold costs_subquery.
        rewrite <- list_fmap_compose. apply list_elem_of_fmap. by exists j.
      * done.
      * done.
      * done.
      * rewrite group_of_selected. cbn. by rewrite <- list_fmap_compose.
      * rewrite group_of_selected. cbn. by rewrite <- list_fmap_compose.
      * rewrite group_of_selected. cbn. by rewrite length_fmap.
      * intros r' Hr' H1 H2 H3.
        apply list_elem_of_fmap in Hr' as (k' & -> & _).
        cbn in H1, H2, H3. apply vstr_inj in H1, H2, H3.
        destruct k' as [[u p] m]. cbn in *. by subst.
  - intros r Hr. apply list_elem_of_fmap in Hr as (k & -> & Hk).
    rewrite elem_of_remove_dups in Hk. unfold costs_subquery in Hk.
    rewrite <- list_fmap_compose in Hk.
    apply list_elem_of_fmap in Hk as (j & -> & Hj).
    by exists j.
  - apply (NoDup_fmap_2_strong _ (remove_dups _)); [|apply NoDup_remove_dups].
    intros k1 k2 _ _ [= H1 H2 H3 _]. apply vstr_inj in H1, H2, H3.
    destruct k1 as [[? ?] ?], k2 as [[? ?] ?]; cbn in *; congruence.
Qed.

(** Two uncached queries of 1 TiB each: 5.0000 + 5.0000 = 10.0000. *)
Lemma per_project_rounding_witness :
  exists r,
    costs_per_project_query (mkdate 2024 2 1) (mkdate 2024 2 29) jobs_two_tib = [r] /\
    cell "user_email" r = VString "u" /\
    cell "project_id" r = VString "p" /\
    cell "month" r = VString "202402" /\
    cell "cost_in_dollar" r = VFloat (100000 # 10000) /\
    cell "bytes_processed_in_gb" r = VFloat (204800 # 100) /\
    cell "num_queries" r = VInt 2.
Proof.
  destruct (per_project_rounding (mkdate 2024 2 1) (mkdate 2024 2 29) jobs_two_tib)
    as (H & _ & _).
  destruct (H (query_job "j2" feb10 TiB (Some false)) ltac:(apply list_elem_of_here))
    as (_ & _ & r & Hr & Hu & Hp & Hm & Hc & Hb & Hn & _).
  apply list_elem_of_singleton in Hr. exists r.
  split; [by rewrite Hr|].
  split; [exact Hu|]. split; [exact Hp|]. split; [exact Hm|].
  split; [exact Hc|]. split; [exact Hb|exact Hn].
Defined.

(** Rounding each cost before the sum is not rounding the sum: two queries
    of 0.00005000001 dollars make 0.0002 in the report, and their exact
    sum rounds to 0.0001. *)
Lemma rounding_order_matters :
  cell "cost_in_dollar" <$>
    costs_per_project_query (mkdate 2024 2 1) (mkdate 2024 2 29) jobs_small
    = [VFloat (2 # 10000)] /\
  ROUND (SUM_float ((fun j => sql_mul (Job.total_bytes_processed j) cost_factor)
                      <$> jobs_small)) 4
    = Some (1 # 10000).
Proof. split; reflexivity. Qed.

(** ** Selection of the jobs *)

Lemma selected_iff first_day last_day jobs j :
  j ∈ selected first_day last_day jobs <->
  j ∈ jobs /\ Job.job_type j = Some "QUERY"%string /\ Job.state j = Some "DONE"%string /\
  exists t, Job.start_time j = Some t /\
    timestamp_of_date first_day <= t <= timestamp_of_date last_day.
Proof.
  unfold selected. rewrite list_elem_of_filter.
  rewrite Is_true_true, where_jobs_true. tauto.
Qed.

(** C6. On 2024-03-15 the period is 2024-02-01 to 2024-02-29; a finished
    query job started on 2024-02-29 at 12:00 UTC lies in that month, but
    the upper bound of BETWEEN is the midnight that starts the last day,
    and the job is in neither cost report. *)
Theorem last_day_job_excluded :
  previous_month (mkdate 2024 3 15)
    = Some (mkdate 2024 2 1, mkdate 2024 2 29, "202402"%string) /\
  included_as_claimed (mkdate 2024 2 1) (mkdate 2024 2 29) job_last_day_noon /\
  DATE (Job.start_time job_last_day_noon) = Some (mkdate 2024 2 29) /\
  where_jobs (mkdate 2024 2 1) (mkdate 2024 2 29) job_last_day_noon = Some false /\
  costs_detail_query (mkdate 2024 2 1) (mkdate 2024 2 29) [job_last_day_noon] = [] /\
  costs_per_project_query (mkdate 2024 2 1) (mkdate 2024 2 29) [job_last_day_noon] = [].
Proof.
  split_and!; try reflexivity.
  split_and!; try reflexivity.
  exists feb29_noon. split; [reflexivity|]. vm_compute. split; [discriminate|reflexivity].
Qed.

(** ** The idempotence check *)

Lemma month_is_true key r : is_true (month_is key r) = true <-> cell "month" r = VString key.
Proof.
  unfold month_is. destruct (cell "month" r) as [| | |s|]; cbn; try (split; congruence).
  destruct (String.eqb_spec s key); cbn; split; congruence.
Qed.

Lemma length_select_month key t :
  length (select_month key (table_rows t)) = length (rows_of_month key t).
Proof.
  unfold select_month, rows_of_month. rewrite length_fmap. f_equal.
  apply list_filter_iff. intros r. by rewrite Is_true_true, month_is_true.
Qed.

Lemma can_insert_data_eq g table_name w :
  can_insert_data g table_name w =
    (gate_outcome w (billing_table_id g table_name) (str_last_month g), w).
Proof.
  unfold can_insert_data, gate_outcome, billing_table_id, try_except.
  unfold mbind, M_bind, BQ_get_table, BQ_query, eval_query.
  destruct (failing w (GetTable _)) as [e|]; [by destruct e|].
  destruct (bq_tables w !! _) as [t|] eqn:Et; [|done].
  destruct (failing w (RunQuery _)) as [e|]; [by destruct e|].
  cbn in Et |- *. rewrite Et, length_select_month.
  by destruct (rows_of_month (str_last_month g) t).
Qed.

(** C1. With the service answering, [can_insert_data] returns true when
    the destination table does not exist, true when it exists and has no
    row whose month column equals the period key, and false when it has one
    or more such rows. *)
Theorem can_insert_data_policy g table_name w :
  failing w (GetTable (billing_table_id g table_name)) = None ->
  failing w (RunQuery (SelectMonth (billing_table_id g table_name) (str_last_month g)))
    = None ->
  (bq_tables w !! billing_table_id g table_name = None ->
     can_insert_data g table_name w = (inr true, w)) /\
  (forall t, bq_tables w !! billing_table_id g table_name = Some t ->
     length (rows_of_month (str_last_month g) t) = 0%nat ->
     can_insert_data g table_name w = (inr true, w)) /\
  (forall t, bq_tables w !! billing_table_id g table_name = Some t ->
     (1 <= length (rows_of_month (str_last_month g) t))%nat ->
     can_insert_data g table_name w = (inr false, w)).
Proof.
  intros Hg Hq. rewrite can_insert_data_eq. unfold gate_outcome. rewrite Hg.
  split_and!.
  - by intros ->.
  - intros t -> Hn. rewrite Hq. apply length_zero_iff_nil in Hn. by rewrite Hn.
  - intros t -> Hn. rewrite Hq.
    destruct (rows_of_month _ t); [cbn in Hn; lia|done].
Qed.

(** The table holds a row of "202402": no insertion for the key "202402",
    insertion for the key "202403" and for a table that does not exist. *)
Lemma can_insert_data_policy_witness :
  can_insert_data globals_march "storage_usage" world_february
    = (inr false, world_february) /\
  can_insert_data globals_april "storage_usage" world_february
    = (inr true, world_february) /\
  can_insert_data globals_march "bq_jobs_costs_detail" world_february
    = (inr true, world_february).
Proof.
  split_and!.
  - destruct (can_insert_data_policy globals_march "storage_usage" world_february
                eq_refl eq_refl) as (_ & _ & H).
    eapply H; [reflexivity|]. vm_compute. lia.
  - destruct (can_insert_data_policy globals_april "storage_usage" world_february
                eq_refl eq_refl) as (_ & H & _).
    eapply H; reflexivity.
  - destruct (can_insert_data_policy globals_march "bq_jobs_costs_detail" world_february
                eq_refl eq_refl) as (H & _ & _).
    apply H. reflexivity.
Defined.




(** ** The storage report *)

Lemma storage_usage_loop_world g projects data w :
  (storage_usage_loop g projects data w).2 = w.
Proof.
  revert data. induction projects as [|p ps IH]; intros data; [done|].
  cbn [storage_usage_loop]. unfold mbind, M_bind, BQ_get_table, CS_list_blobs.
  destruct (failing w (GetTable _)); [done|].
  destruct (bq_tables w !! _); [|done].
  destruct (failing w (ListBlobs _ _)); [done|].
  apply IH.
Qed.

(** A frame that is returned has one more row per project, all of the
    reporting month. *)
Lemma storage_usage_loop_rows g projects data w df :
  (storage_usage_loop g projects data w).1 = inr df ->
  exists rows, df = data ++ rows /\ length rows = length projects /\
    Forall (fun r => cell "month" r = VString (str_last_month g)) rows.
Proof.
  revert data. induction projects as [|p ps IH]; intros data.
  - cbn. intros [= <-]. exists []. by rewrite app_nil_r.
  - cbn [storage_usage_loop]. unfold mbind, M_bind, BQ_get_table, CS_list_blobs.
    destruct (failing w (GetTable _)); [done|].
    destruct (bq_tables w !! _); [|done].
    destruct (failing w (ListBlobs _ _)); [done|].
    intros H. apply IH in H as (rows & -> & Hlen & Hall).
    eexists (_ :: rows). rewrite <- app_assoc. split; [done|].
    split; [cbn; by rewrite Hlen|]. by constructor.
Qed.

Lemma storage_usage_loop_missing g projects data w project :
  project ∈ projects ->
  bq_tables w !! main_table_id g project = None ->
  exists e, storage_usage_loop g projects data w = (inl e, w) /\
    ((forall r, failing w r = None) -> e = NotFound).
Proof.
  intros Hin Hmiss. revert data.
  induction projects as [|p ps IH]; intros data; [by apply elem_of_nil in Hin|].
  cbn [storage_usage_loop]. unfold mbind, M_bind, BQ_get_table, CS_list_blobs.
  fold (main_table_id g p).
  destruct (failing w (GetTable _)) eqn:E1.
  { eexists. split; [done|]. intros Hf. by rewrite Hf in E1. }
  destruct (bq_tables w !! main_table_id g p) eqn:E2;
    [|eexists; split; [reflexivity|done]].
  destruct (failing w (ListBlobs _ _)) eqn:E3.
  { eexists. split; [done|]. intros Hf. by rewrite Hf in E3. }
  apply IH. apply elem_of_cons in Hin as [->|Hin]; [|done]. congruence.
Qed.

(** ** One report *)

Lemma store_df_in_bq_eq g df table_name w :
  store_df_in_bq g df table_name w =
    match failing w (LoadTable (billing_table_id g table_name)) with
    | Some e => (inl e, w)
    | None => (inr tt, loaded_world (billing_table_id g table_name) df w)
    end.
Proof. reflexivity. Qed.

Lemma report_step_eq g table_name (gen : M DataFrame) w :
  report_step g table_name gen w =
    match gate_outcome w (billing_table_id g table_name) (str_last_month g) with
    | inl e => (inl e, w)
    | inr false => (inr tt, w)
    | inr true =>
        match gen w with
        | (inl e, w') => (inl e, w')
        | (inr df, w') => store_df_in_bq g df table_name w'
        end
    end.
Proof.
  unfold report_step, mbind, M_bind. rewrite can_insert_data_eq.
  by destruct (gate_outcome _ _ _) as [e|[]].
Qed.

Lemma for_reports_cons g table_name gen items w :
  for_reports g ((table_name, gen) :: items) w =
    match report_step g table_name gen w with
    | (inl e, w') => (inl e, w')
    | (inr _, w') => for_reports g items w'
    end.
Proof. reflexivity. Qed.

(** C9. When the main table of a tracked dataset is missing,
    [generate_storage_usage] returns no frame: it raises, [NotFound] when
    the service itself answers every request, and nothing catches it. When
    the idempotence check lets the storage report through, [main] ends
    with that exception and the world as it was: nothing is stored and the
    two remaining reports are not run. *)
Theorem storage_usage_missing_table g w project :
  project ∈ bigquery_projects g ->
  bq_tables w !! main_table_id g project = None ->
  (exists e, generate_storage_usage g w = (inl e, w) /\
     ((forall r, failing w r = None) -> e = NotFound)) /\
  ((can_insert_data g "storage_usage" w).1 = inr true ->
   exists e, main g w = (inl e, w) /\
     ((forall r, failing w r = None) -> e = NotFound)).
Proof.
  intros Hin Hmiss.
  destruct (storage_usage_loop_missing g _ [] w project Hin Hmiss) as (e & He & Hnf).
  split; [by exists e|].
  intros Hgate. exists e. split; [|done].
  unfold main, reports. rewrite for_reports_cons, report_step_eq.
  rewrite can_insert_data_eq in Hgate. cbn [fst] in Hgate. rewrite Hgate.
  unfold generate_storage_usage. by rewrite He.
Qed.

Lemma storage_usage_missing_table_witness :
  generate_storage_usage globals_march world_missing = (inl NotFound, world_missing) /\
  main globals_march world_missing = (inl NotFound, world_missing).
Proof.
  destruct (storage_usage_missing_table globals_march world_missing "p2")
    as ((e1 & H1 & E1) & H2).
  - vm_compute. apply list_elem_of_further, list_elem_of_here.
  - reflexivity.
  - destruct (H2 eq_refl) as (e2 & H3 & E2).
    rewrite (E1 (fun _ => eq_refl)) in H1. rewrite (E2 (fun _ => eq_refl)) in H3.
    exact (conj H1 H3).
Defined.

(** ** The pipeline *)

Lemma append_inj_r (s a b : string) : s +:+ a = s +:+ b -> a = b.
Proof. induction s as [|c s IH]; cbn; [done|]. intros [= H]. auto. Qed.

Lemma billing_table_id_inj g t1 t2 :
  billing_table_id g t1 = billing_table_id g t2 -> t1 = t2.
Proof.
  unfold billing_table_id. intros H.
  do 4 apply append_inj_r in H. done.
Qed.

Lemma generate_storage_usage_ok g : gen_ok g (generate_storage_usage g).
Proof.
  split.
  - intros w. apply storage_usage_loop_world.
  - intros w df H. apply storage_usage_loop_rows in H as (rows & -> & _ & Hall). done.
  - intros w w' _ H. left.
    apply storage_usage_loop_rows in H as (rows & Hnil & Hlen & _).
    cbn in Hnil. subst rows. unfold generate_storage_usage.
    destruct (bigquery_projects g); [done|discriminate].
Qed.

Lemma generate_bq_jobs_costs_detail_ok g :
  loaded g -> gen_ok g (generate_bq_jobs_costs_detail g).
Proof.
  intros Hl. unfold generate_bq_jobs_costs_detail, BQ_query. split.
  - intros w. by destruct (failing w _).
  - intros w df. destruct (failing w _); [done|]. cbn. intros [= <-].
    unfold costs_detail_query. apply Forall_forall. intros r Hr.
    apply list_elem_of_fmap in Hr as (j & -> & Hj).
    rewrite merge_sort_Permutation in Hj.
    apply list_elem_of_filter in Hj as [Hw _]. apply Is_true_true in Hw.
    cbn. by rewrite (where_jobs_month g j Hl Hw).
  - intros w w' Hj. destruct (failing w _); [done|].
    destruct (failing w' _) as [e|] eqn:E; [right; by eexists _, e|left].
    cbn [eval_query fst] in *. unfold costs_detail_query in *.
    unfold period_jobs in Hj. by rewrite Hj.
Qed.

Lemma generate_bq_jobs_costs_per_project_ok g :
  loaded g -> gen_ok g (generate_bq_jobs_costs_per_project g).
Proof.
  intros Hl. unfold generate_bq_jobs_costs_per_project, BQ_query. split.
  - intros w. by destruct (failing w _).
  - intros w df. destruct (failing w _); [done|]. cbn. intros [= <-].
    unfold costs_per_project_query, costs_subquery. apply Forall_forall. intros r Hr.
    apply list_elem_of_fmap in Hr as (k & -> & Hk).
    rewrite elem_of_remove_dups, <- list_fmap_compose in Hk.
    apply list_elem_of_fmap in Hk as (j & -> & Hj).
    apply list_elem_of_filter in Hj as [Hw _]. apply Is_true_true in Hw.
    cbn. by rewrite (where_jobs_month g j Hl Hw).
  - intros w w' Hj. destruct (failing w _); [done|].
    destruct (failing w' _) as [e|] eqn:E; [right; by eexists _, e|left].
    cbn [eval_query fst] in *. unfold costs_per_project_query, costs_subquery in *.
    unfold period_jobs in Hj. by rewrite Hj.
Qed.

Lemma reports_ok g :
  loaded g -> Forall (fun it => gen_ok g it.2) (reports g).
Proof.
  intros Hl. unfold reports.
  apply Forall_cons_2; [apply generate_storage_usage_ok|].
  apply Forall_cons_2; [by apply generate_bq_jobs_costs_detail_ok|].
  apply Forall_cons_2; [by apply generate_bq_jobs_costs_per_project_ok|].
  apply Forall_nil_2.
Qed.

Lemma reports_NoDup g : NoDup (reports g).*1.
Proof. cbn. apply (bool_decide_unpack _). by vm_compute. Qed.

Lemma gate_outcome_ext w w' table_id key :
  failing w' = failing w -> bq_tables w' !! table_id = bq_tables w !! table_id ->
  gate_outcome w' table_id key = gate_outcome w table_id key.
Proof. intros Hf Ht. unfold gate_outcome. by rewrite Hf, Ht. Qed.

Lemma gate_outcome_true w table_id key :
  no_not_found (failing w) ->
  gate_outcome w table_id key = inr true ->
  failing w (GetTable table_id) = None /\
  rows_of_month key (default empty_table (bq_tables w !! table_id)) = [].
Proof.
  intros Hnf. unfold gate_outcome.
  destruct (failing w (GetTable _)) as [e|] eqn:E1.
  { destruct (decide (e = NotFound)) as [->|]; [by apply Hnf in E1|done]. }
  destruct (bq_tables w !! table_id) as [t|]; [|done].
  destruct (failing w (RunQuery _)) as [e|] eqn:E2.
  { destruct (decide (e = NotFound)) as [->|]; [by apply Hnf in E2|done]. }
  intros [= H]. by apply bool_decide_eq_true in H.
Qed.

Lemma gate_outcome_false w table_id key :
  gate_outcome w table_id key = inr false ->
  exists t, bq_tables w !! table_id = Some t /\ rows_of_month key t <> [].
Proof.
  unfold gate_outcome.
  destruct (failing w (GetTable _)) as [e|]; [by destruct (decide _)|].
  destruct (bq_tables w !! table_id) as [t|]; [|done].
  destruct (failing w (RunQuery _)) as [e|]; [by destruct (decide _)|].
  intros [= H]. apply bool_decide_eq_false in H. by exists t.
Qed.

(** With rows of the period in the table the check denies or fails. *)
Lemma gate_outcome_rows w table_id key t :
  no_not_found (failing w) ->
  bq_tables w !! table_id = Some t -> rows_of_month key t <> [] ->
  gate_outcome w table_id key <> inr true.
Proof.
  intros Hnf Ht Hrows Hgate. apply gate_outcome_true in Hgate as [_ H]; [|done].
  rewrite Ht in H. done.
Qed.

Lemma no_failure_no_not_found (f : request -> option exn) :
  (forall r, f r = None) -> no_not_found f.
Proof. intros H r. by rewrite H. Qed.

Lemma set_tables_id w table_id t :
  bq_tables w !! table_id = Some t -> set_tables <[table_id := t]> w = w.
Proof. intros H. destruct w. unfold set_tables. cbn in *. by rewrite insert_id. Qed.

Lemma table_rows_append_load df t : table_rows (append_load df t) = table_rows t ++ df.
Proof.
  unfold table_rows, append_load. destruct df; [by rewrite app_nil_r|].
  cbn. rewrite concat_app. cbn. by rewrite app_nil_r.
Qed.

Lemma rows_of_month_append_load key df t :
  Forall (fun r => cell "month" r = VString key) df ->
  rows_of_month key (append_load df t) = rows_of_month key t ++ df.
Proof.
  intros Hall. unfold rows_of_month. rewrite table_rows_append_load, filter_app.
  f_equal. induction Hall as [|r l Hr _ IH]; [done|].
  by rewrite filter_cons_True, IH.
Qed.

(** The three ways an iteration of the loop of [main] can go. *)
Lemma report_step_cases g table_name gen w :
  (forall w, (gen w).2 = w) ->
  let table_id := billing_table_id g table_name in
  (exists e, report_step g table_name gen w = (inl e, w)) \/
  (report_step g table_name gen w = (inr tt, w) /\
   gate_outcome w table_id (str_last_month g) = inr false) \/
  (exists df,
     gate_outcome w table_id (str_last_month g) = inr true /\
     gen w = (inr df, w) /\
     failing w (LoadTable table_id) = None /\
     report_step g table_name gen w = (inr tt, loaded_world table_id df w)).
Proof.
  intros Hw. cbv zeta. rewrite report_step_eq.
  destruct (gate_outcome _ _ _) as [e|[]]; [by left; exists e| |by right; left].
  pose proof (Hw w) as Hw'. destruct (gen w) as [[e|df] w']; cbn in Hw'; subst w'.
  { left. by exists e. }
  rewrite store_df_in_bq_eq.
  destruct (failing w (LoadTable _)) eqn:E; [left; by eexists|].
  right. right. by exists df.
Qed.

Lemma report_step_frame g table_name gen w :
  (forall w, (gen w).2 = w) ->
  bq_jobs (report_step g table_name gen w).2 = bq_jobs w /\
  failing (report_step g table_name gen w).2 = failing w /\
  forall table_id, table_id <> billing_table_id g table_name ->
    bq_tables (report_step g table_name gen w).2 !! table_id = bq_tables w !! table_id.
Proof.
  intros Hw.
  destruct (report_step_cases g table_name gen w Hw)
    as [(e & ->)|[(-> & _)|(df & _ & _ & _ & ->)]]; try done.
  cbn. split_and!; try done. intros id' Hne. by rewrite lookup_insert_ne.
Qed.

Lemma for_reports_frame g items w :
  Forall (fun it : string * M DataFrame => forall w, (it.2 w).2 = w) items ->
  bq_jobs (for_reports g items w).2 = bq_jobs w /\
  failing (for_reports g items w).2 = failing w /\
  forall table_id,
    (forall t, t ∈ items.*1 -> table_id <> billing_table_id g t) ->
    bq_tables (for_reports g items w).2 !! table_id = bq_tables w !! table_id.
Proof.
  intros Hall. revert w. induction Hall as [|[t gen] items Hgen _ IH]; intros w; [done|].
  rewrite for_reports_cons.
  destruct (report_step_frame g t gen w Hgen) as (Hj & Hf & Ht).
  destruct (report_step g t gen w) as [[e|[]] w1]; cbn [fst snd] in *.
  - split_and!; try done. intros id' Hid. apply Ht, Hid. cbn. apply list_elem_of_here.
  - destruct (IH w1) as (Hj' & Hf' & Ht'). split_and!; try congruence.
    intros id' Hid. rewrite Ht', Ht; [done| |].
    + apply Hid. cbn. apply list_elem_of_here.
    + intros t' Ht''. apply Hid. cbn. by apply list_elem_of_further.
Qed.

Lemma lookup_loaded_world table_id df w :
  bq_tables (loaded_world table_id df w) !! table_id
    = Some (append_load df (default empty_table (bq_tables w !! table_id))).
Proof. cbn. by rewrite lookup_insert_eq. Qed.

(** After a non-empty load of rows of the period the check denies or
    fails. *)
Lemma gate_outcome_after_load w table_id key df t :
  no_not_found (failing w) ->
  df <> [] -> Forall (fun r => cell "month" r = VString key) df ->
  bq_tables w !! table_id = Some (append_load df t) ->
  gate_outcome w table_id key <> inr true.
Proof.
  intros Hnf Hne Hall Ht. eapply gate_outcome_rows; [done|exact Ht|].
  rewrite rows_of_month_append_load by done.
  intros H. by apply app_nil in H as [_ ?].
Qed.

(** An iteration that went through once changes nothing when it is run
    again, also after loads into other tables and whatever requests the
    service then refuses. *)
Lemma report_step_settled g table_name gen w0 wa w' :
  gen_ok g gen ->
  report_step g table_name gen w0 = (inr tt, wa) ->
  bq_tables w' !! billing_table_id g table_name
    = bq_tables wa !! billing_table_id g table_name ->
  period_jobs g w' = period_jobs g w0 -> no_not_found (failing w') ->
  (report_step g table_name gen w').2 = w'.
Proof.
  intros [Hw Hm He] Hstep Ht Hj Hnf.
  destruct (report_step_cases g table_name gen w0 Hw)
    as [(e & H)|[(H & Hgate)|(df & Hgate & Hgen & Hload & H)]];
    rewrite H in Hstep; [done| |]; injection Hstep as Hwa; subst wa.
  - apply gate_outcome_false in Hgate as (t & Ht0 & Hrows).
    rewrite Ht0 in Ht.
    pose proof (gate_outcome_rows w' _ (str_last_month g) t Hnf Ht Hrows) as Hno.
    rewrite report_step_eq. by destruct (gate_outcome w' _ _) as [e|[]].
  - rewrite lookup_loaded_world in Ht.
    pose proof (Hm w0 df ltac:(by rewrite Hgen)) as Hall.
    rewrite report_step_eq.
    destruct df as [|r df].
    + (* an empty frame: generated and stored again, to no effect *)
      cbn [append_load] in Ht.
      destruct (gate_outcome w' _ _) as [e|[]]; [done| |done].
      pose proof (Hw w') as Hw'.
      destruct (He w0 w' Hj ltac:(by rewrite Hgen)) as [Hgen'|(rq & e & _ & Hgen')];
        destruct (gen w') as [r' w'']; cbn in Hgen', Hw'; subst r' w''; [|done].
      rewrite store_df_in_bq_eq. destruct (failing w' (LoadTable _)); [done|].
      cbn [snd]. unfold loaded_world. rewrite Ht. cbn [default append_load].
      by apply set_tables_id.
    + pose proof (gate_outcome_after_load w' _ (str_last_month g) (r :: df) _
                    Hnf ltac:(done) Hall Ht) as Hno.
      by destruct (gate_outcome w' _ _) as [e|[]].
Qed.

(** A second run from the world a first run ended in changes nothing:
    with the same requests refused when the first run was interrupted,
    with any requests refused when it finished. *)
Lemma for_reports_settled g items :
  NoDup items.*1 ->
  Forall (fun it => gen_ok g it.2) items ->
  forall w0 w',
    (forall t, t ∈ items.*1 ->
       bq_tables w' !! billing_table_id g t
         = bq_tables (for_reports g items w0).2 !! billing_table_id g t) ->
    period_jobs g w' = period_jobs g w0 -> no_not_found (failing w') ->
    (forall e, (for_reports g items w0).1 = inl e -> w' = (for_reports g items w0).2) ->
    (for_reports g items w').2 = w'.
Proof.
  intros Hnd Hall. induction Hall as [|[t gen] items Hgen Hall IH]; [done|].
  apply NoDup_cons in Hnd as [Hnotin Hnd]. cbn [fmap list_fmap fst] in Hnotin.
  specialize (IH Hnd).
  intros w0 w'. rewrite (for_reports_cons g t gen items w0).
  assert (Forall (fun it : string * M DataFrame => forall w, (it.2 w).2 = w) items)
    as Hws by (eapply Forall_impl; [exact Hall|]; by intros it []).
  pose proof (report_step_frame g t gen w0 (gen_world _ _ Hgen)) as (Hj0 & Hf0 & _).
  destruct (report_step_cases g t gen w0 (gen_world _ _ Hgen))
    as [(e & H)|[(H & _)|(df & _ & _ & _ & H)]]; rewrite H in *; cbn [fst snd] in *.
  - (* the first run stopped here: the second meets the same world *)
    intros _ _ _ Hsame. rewrite (Hsame e eq_refl).
    rewrite for_reports_cons, H. done.
  - intros Hagree Hj Hnf Hsame.
    destruct (for_reports_frame g items w0 Hws) as (_ & _ & Hfr).
    assert ((report_step g t gen w').2 = w') as Hst.
    { eapply report_step_settled; [done|exact H| |done|done].
      rewrite Hagree by apply list_elem_of_here.
      apply Hfr. intros t' Ht' E. apply billing_table_id_inj in E. by subst. }
    rewrite for_reports_cons.
    destruct (report_step g t gen w') as [[e|[]] w'']; cbn in Hst; subst w''; [done|].
    apply (IH w0 w'); try done.
    intros t' Ht'. apply Hagree. by apply list_elem_of_further.
  - intros Hagree Hj Hnf Hsame.
    set (wa := loaded_world (billing_table_id g t) df w0) in *.
    destruct (for_reports_frame g items wa Hws) as (_ & _ & Hfr).
    assert ((report_step g t gen w').2 = w') as Hst.
    { eapply report_step_settled; [done|exact H| |done|done].
      rewrite Hagree by apply list_elem_of_here.
      apply Hfr. intros t' Ht' E. apply billing_table_id_inj in E. by subst. }
    rewrite for_reports_cons.
    destruct (report_step g t gen w') as [[e|[]] w'']; cbn in Hst; subst w''; [done|].
    apply (IH wa w'); try done.
    intros t' Ht'. apply Hagree. by apply list_elem_of_further.
Qed.

(** A table the check denies is left alone by the whole loop. *)
Lemma for_reports_denied g items table_name :
  Forall (fun it : string * M DataFrame => forall w, (it.2 w).2 = w) items ->
  forall w,
    gate_outcome w (billing_table_id g table_name) (str_last_month g) = inr false ->
    bq_tables (for_reports g items w).2 !! billing_table_id g table_name
      = bq_tables w !! billing_table_id g table_name.
Proof.
  intros Hall. induction Hall as [|[t gen] items Hgen _ IH]; intros w Hgate; [done|].
  rewrite for_reports_cons.
  destruct (decide (t = table_name)) as [->|Hne].
  - rewrite report_step_eq, Hgate. by apply IH.
  - destruct (report_step_frame g t gen w Hgen) as (_ & Hf & Ht).
    assert (billing_table_id g table_name <> billing_table_id g t) as Hid
      by (intros E; apply billing_table_id_inj in E; congruence).
    specialize (Ht _ Hid).
    destruct (report_step g t gen w) as [[e|[]] w1]; cbn [fst snd] in *; [done|].
    rewrite IH; [done|]. by rewrite (gate_outcome_ext w w1).
Qed.

Lemma elem_of_concat {A} (x : A) (l : list A) (ls : list (list A)) :
  l ∈ ls -> x ∈ l -> x ∈ concat ls.
Proof.
  intros Hl Hx. induction ls as [|l' ls' IH]; [by apply elem_of_nil in Hl|].
  cbn. apply elem_of_app. apply elem_of_cons in Hl as [->|Hl]; auto.
Qed.

Lemma loads_of_month_none key t :
  rows_of_month key t = [] -> loads_of_month key t = [].
Proof.
  intros Hnil. unfold loads_of_month.
  destruct (filter _ _) as [|df l] eqn:E; [done|].
  assert (df ∈ filter (carries_month key) (tbl_loads t)) as Hin
    by (rewrite E; apply list_elem_of_here).
  apply list_elem_of_filter in Hin as [Hc Hin].
  apply Exists_exists in Hc as (r & Hr & Hm).
  exfalso. eapply (filter_nil_not_elem_of _ _ r Hnil); [done|].
  unfold table_rows. by apply (elem_of_concat r df).
Qed.

Lemma loads_of_month_append_load key m df t :
  Forall (fun r => cell "month" r = VString key) df ->
  rows_of_month key t = [] ->
  (length (loads_of_month m t) <= 1)%nat ->
  (length (loads_of_month m (append_load df t)) <= 1)%nat.
Proof.
  intros Hall Hnil Hle. destruct df as [|r df]; [done|].
  unfold loads_of_month, append_load. cbn [tbl_loads].
  rewrite filter_app, length_app. fold (loads_of_month m t).
  destruct (decide (m = key)) as [->|Hne].
  - rewrite (loads_of_month_none key t Hnil). cbn [length].
    rewrite filter_cons. destruct (decide _); cbn; lia.
  - rewrite filter_cons_False; [cbn; lia|].
    intros Hc. apply Exists_exists in Hc as (r' & Hr' & Hm').
    rewrite Forall_forall in Hall. rewrite (Hall r' Hr') in Hm'. congruence.
Qed.

Lemma report_step_one_load g table_name gen w :
  gen_ok g gen -> no_not_found (failing w) ->
  one_load_per_month w -> one_load_per_month (report_step g table_name gen w).2.
Proof.
  intros [Hw Hm _] Hnf Hinv.
  destruct (report_step_cases g table_name gen w Hw)
    as [(e & ->)|[(-> & _)|(df & Hgate & Hgen & _ & ->)]]; try done.
  cbn [snd]. intros id' t' m.
  destruct (decide (id' = billing_table_id g table_name)) as [->|Hne].
  - rewrite lookup_loaded_world. intros [= <-].
    apply gate_outcome_true in Hgate as [_ Hrows]; [|done].
    apply (loads_of_month_append_load (str_last_month g)); [|done|].
    + apply (Hm w). by rewrite Hgen.
    + destruct (bq_tables w !! _) as [t0|] eqn:E; cbn [default]; [by eapply Hinv|].
      cbn. lia.
  - cbn. rewrite lookup_insert_ne by done. apply Hinv.
Qed.

Lemma for_reports_one_load g items w :
  Forall (fun it => gen_ok g it.2) items ->
  no_not_found (failing w) ->
  one_load_per_month w -> one_load_per_month (for_reports g items w).2.
Proof.
  intros Hall. revert w.
  induction Hall as [|[t gen] items Hgen _ IH]; intros w Hnf Hinv; [done|].
  rewrite for_reports_cons.
  pose proof (report_step_one_load g t gen w Hgen Hnf Hinv) as Hstep.
  destruct (report_step_frame g t gen w (gen_world _ _ Hgen)) as (_ & Hf & _).
  destruct (report_step g t gen w) as [[e|[]] w1]; cbn [snd] in *; [done|].
  apply IH; [by rewrite Hf|done].
Qed.

Lemma rows_at_loaded_world table_id df w id' :
  rows_at (loaded_world table_id df w) id'
    = if decide (id' = table_id) then rows_at w table_id ++ df else rows_at w id'.
Proof.
  unfold rows_at, loaded_world. cbn.
  destruct (decide (id' = table_id)) as [->|Hne].
  - rewrite lookup_insert_eq. cbn. rewrite table_rows_append_load.
    by destruct (bq_tables w !! table_id).
  - by rewrite lookup_insert_ne.
Qed.

(** A report whose table gained rows in a run is not let through at the
    end of that run. *)
Lemma for_reports_gained g items table_name :
  NoDup items.*1 ->
  Forall (fun it => gen_ok g it.2) items ->
  table_name ∈ items.*1 ->
  forall w,
    no_not_found (failing w) ->
    rows_at (for_reports g items w).2 (billing_table_id g table_name)
      <> rows_at w (billing_table_id g table_name) ->
    gate_outcome (for_reports g items w).2 (billing_table_id g table_name)
                 (str_last_month g) <> inr true.
Proof.
  intros Hnd Hall. induction Hall as [|[t gen] items Hgen Hall IH]; intros Hin w Hnf.
  { by apply elem_of_nil in Hin. }
  apply NoDup_cons in Hnd as [Hnotin Hnd]. cbn [fmap list_fmap fst] in Hnotin, Hin.
  assert (Forall (fun it : string * M DataFrame => forall w, (it.2 w).2 = w) items)
    as Hws by (eapply Forall_impl; [exact Hall|]; by intros it []).
  rewrite for_reports_cons.
  destruct (decide (t = table_name)) as [->|Hne].
  - assert (forall w1, bq_tables (for_reports g items w1).2 !! billing_table_id g table_name
                       = bq_tables w1 !! billing_table_id g table_name) as Hfr.
    { intros w1. apply for_reports_frame; [done|].
      intros t' Ht' E. apply billing_table_id_inj in E. by subst. }
    destruct (report_step_cases g table_name gen w (gen_world _ _ Hgen))
      as [(e & ->)|[(-> & _)|(df & Hgate & Hgen' & _ & ->)]]; cbn [snd].
    + done.
    + unfold rows_at. by rewrite Hfr.
    + unfold rows_at. rewrite Hfr, lookup_loaded_world. cbn [from_option].
      rewrite table_rows_append_load. intros Hch.
      destruct (for_reports_frame g items
                  (loaded_world (billing_table_id g table_name) df w) Hws)
        as (_ & Hf & _).
      eapply (gate_outcome_after_load _ _ _ df).
      * by rewrite Hf.
      * intros ->. apply Hch. rewrite app_nil_r. by destruct (bq_tables w !! _).
      * apply (gen_month _ _ Hgen w). cbn [snd]. by rewrite Hgen'.
      * rewrite Hfr. apply lookup_loaded_world.
  - apply elem_of_cons in Hin as [->|Hin]; [done|].
    destruct (report_step_frame g t gen w (gen_world _ _ Hgen)) as (_ & Hf & Ht).
    assert (billing_table_id g table_name <> billing_table_id g t) as Hid
      by (intros E; apply billing_table_id_inj in E; congruence).
    specialize (Ht _ Hid).
    destruct (report_step g t gen w) as [[e|[]] w1]; cbn [fst snd] in *.
    + unfold rows_at. by rewrite Ht.
    + intros Hch. apply (IH Hnd Hin w1); [by rewrite Hf|].
      unfold rows_at in *. by rewrite Ht.
Qed.

(** With the service answering, a report that a finished run let through
    and that left its table with the rows it had was an empty frame: at
    the end of the run the check lets it through again, and it is the
    empty frame again. *)
Lemma for_reports_empty_again g items table_name gen :
  NoDup items.*1 ->
  Forall (fun it => gen_ok g it.2) items ->
  (table_name, gen) ∈ items ->
  forall w,
    (forall r, failing w r = None) ->
    (for_reports g items w).1 = inr tt ->
    gate_outcome w (billing_table_id g table_name) (str_last_month g) = inr true ->
    rows_at (for_reports g items w).2 (billing_table_id g table_name)
      = rows_at w (billing_table_id g table_name) ->
    gate_outcome (for_reports g items w).2 (billing_table_id g table_name)
                 (str_last_month g) = inr true /\
    gen (for_reports g items w).2 = (inr [], (for_reports g items w).2).
Proof.
  intros Hnd Hall.
  induction Hall as [|[t gen'] items Hgen Hall IH]; intros Hin w Hnone Hres Hgate Hrows.
  { by apply elem_of_nil in Hin. }
  apply NoDup_cons in Hnd as [Hnotin Hnd]. cbn [fmap list_fmap fst] in Hnotin.
  assert (Forall (fun it : string * M DataFrame => forall w, (it.2 w).2 = w) items)
    as Hws by (eapply Forall_impl; [exact Hall|]; by intros it []).
  rewrite for_reports_cons in Hres, Hrows |- *.
  destruct (decide (t = table_name)) as [->|Hne].
  - assert (gen' = gen) as ->.
    { apply elem_of_cons in Hin as [[= ->]|Hin]; [done|].
      exfalso. apply Hnotin, list_elem_of_fmap. by exists (table_name, gen). }
    destruct (report_step_cases g table_name gen w (gen_world _ _ Hgen))
      as [(e & H)|[(H & Hgate')|(df & _ & Hgen' & _ & H)]]; rewrite H in *;
      cbn [fst snd] in *; [done|congruence|].
    set (w1 := loaded_world (billing_table_id g table_name) df w) in *.
    destruct (for_reports_frame g items w1 Hws) as (Hj & Hf & Hfr).
    assert (bq_tables (for_reports g items w1).2 !! billing_table_id g table_name
            = Some (append_load df (default empty_table
                      (bq_tables w !! billing_table_id g table_name)))) as Hlk.
    { rewrite Hfr; [apply lookup_loaded_world|].
      intros t' Ht' E. apply billing_table_id_inj in E. by subst. }
    clear Hfr.
    assert (df = []) as ->.
    { unfold rows_at in Hrows. rewrite Hlk in Hrows.
      cbn [from_option] in Hrows. rewrite table_rows_append_load in Hrows.
      apply (app_inv_head (table_rows (default empty_table
               (bq_tables w !! billing_table_id g table_name)))).
      rewrite app_nil_r, Hrows. by destruct (bq_tables w !! _). }
    cbn [append_load] in Hlk.
    apply gate_outcome_true in Hgate as [_ Hnil];
      [|by apply no_failure_no_not_found].
    split.
    + unfold gate_outcome. rewrite Hf. change (failing w1) with (failing w).
      rewrite !Hnone, Hlk. cbv beta iota. by rewrite Hnil.
    + pose proof (gen_world _ _ Hgen (for_reports g items w1).2) as Hw'.
      destruct (gen_empty _ _ Hgen w (for_reports g items w1).2
                  ltac:(unfold period_jobs; by rewrite Hj)
                  ltac:(by rewrite Hgen')) as [He|(rq & e & Hrq & _)].
      * apply injective_projections; [exact He|exact Hw'].
      * rewrite Hf in Hrq. change (failing w1) with (failing w) in Hrq.
        by rewrite Hnone in Hrq.
  - apply elem_of_cons in Hin as [[= -> ->]|Hin]; [done|].
    destruct (report_step_frame g t gen' w (gen_world _ _ Hgen)) as (_ & Hf & Ht).
    assert (billing_table_id g table_name <> billing_table_id g t) as Hid
      by (intros E; apply billing_table_id_inj in E; congruence).
    specialize (Ht _ Hid).
    destruct (report_step g t gen' w) as [[e|[]] w1]; cbn [fst snd] in *; [done|].
    apply (IH Hnd Hin w1); try done.
    + intros r. by rewrite Hf.
    + by rewrite (gate_outcome_ext w w1).
    + rewrite Hrows. unfold rows_at. by rewrite Ht.
Qed.

Lemma loaded_globals_march : loaded globals_march.
Proof. split; [|reflexivity]. unfold valid. repeat split; by vm_compute. Qed.

(** Why the service is taken to raise [NotFound] for an absent table only:
    when the month lookup raises it for the storage table, which holds a
    load of February 2024, the check answers true and the run appends a
    second load of that month. *)
Lemma lookup_not_found_duplicates :
  exists t1,
    bq_tables (main globals_march world_lookup_not_found).2
      !! "billing.reports.storage_usage"%string = Some t1 /\
    length (loads_of_month "202402" t1) = 2%nat.
Proof. eexists. split; [reflexivity|]. by vm_compute. Qed.

(** C2 as stated fails where it says that the second run skips every
    report: with no job in the period the detail report is an empty frame,
    the first run leaves its table without rows, and the second run lets
    the report through and generates it again. *)
Lemma second_run_not_all_skipped :
  loaded globals_march /\
  (main globals_march world_fresh).1 = inr tt /\
  (can_insert_data globals_march "bq_jobs_costs_detail"
     (main globals_march world_fresh).2).1 = inr true /\
  (generate_bq_jobs_costs_detail globals_march (main globals_march world_fresh).2).1
    = inr [].
Proof.
  split; [exact loaded_globals_march|]. split_and!; by vm_compute.
Qed.

(** Jobs started after midnight of the last day of the period are not
    among the jobs of the period. *)
Lemma selected_app_later first_day last_day (jobs later : list job) :
  Forall (fun j => forall t, Job.start_time j = Some t ->
                             timestamp_of_date last_day < t) later ->
  selected first_day last_day (jobs ++ later) = selected first_day last_day jobs.
Proof.
  intros Hall. unfold selected. rewrite filter_app.
  assert (filter (fun j => is_true (where_jobs first_day last_day j)) later = []) as ->;
    [|by rewrite app_nil_r].
  induction Hall as [|j l Hj _ IH]; [done|].
  rewrite filter_cons_False; [done|].
  rewrite Is_true_true, where_jobs_true. intros (_ & _ & t & Ht & Hb).
  specialize (Hj t Ht). lia.
Qed.

(** The period of a loaded module ends before the day it is loaded on. *)
Lemma loaded_period_before_today g :
  loaded g ->
  timestamp_of_date (date_last_day_previous_month g) < timestamp_of_date (date_tc g).
Proof.
  intros Hl. pose proof (loaded_not_first_month g Hl) as Hne.
  destruct (loaded_period g Hl Hne) as (_ & -> & _). cbv zeta.
  destruct Hl as [(Hy & Hm & Hd) _].
  pose proof (ymd2ord_day0 (year (date_tc g)) _ Hm) as H0.
  unfold timestamp_of_date, toordinal, MICROS_PER_DAY. cbn [year month day].
  rewrite <- H0. unfold ymd2ord. lia.
Qed.

(** The jobs the metadata gains from the day of the run on, such as those
    of the module itself, leave the jobs of the period as they are. *)
Lemma period_jobs_later g w w2 later :
  loaded g ->
  bq_jobs w2 = bq_jobs w ++ later ->
  Forall (fun j => forall t, Job.start_time j = Some t ->
                             timestamp_of_date (date_tc g) <= t) later ->
  period_jobs g w2 = period_jobs g w.
Proof.
  intros Hl Hj Hall. unfold period_jobs. rewrite Hj.
  apply selected_app_later.
  pose proof (loaded_period_before_today g Hl) as Hlt.
  eapply Forall_impl; [exact Hall|]. intros j H t Ht. specialize (H t Ht). lia.
Qed.

(** C2 (as amended). The service is taken to answer [NotFound] only for a
    table that is absent. A second run of [main] from the world the first
    run ended in, with the same requests refused, ends in that same world.
    When the first run returned normally, a second run changes nothing in
    any world with the tables the first run left and the same jobs in the
    period, whatever requests the service then refuses and whatever jobs
    from the day of the run on the metadata has gained. A table for which
    [can_insert_data] answers false is left as it is by a run, rows and
    row count. A run keeps the invariant that no table holds two loads of
    the same month. A report whose table gained rows in the first run is
    not let through by [can_insert_data] in the second, and is skipped
    when the service answers every request. With the service answering
    every request, a report that a finished first run let through and
    that added no row, its frame being empty, is let through again in the
    second run and is the empty frame again. *)
Theorem main_idempotent g w :
  loaded g ->
  let w1 := (main g w).2 in
  (no_not_found (failing w) -> (main g w1).2 = w1) /\
  ((main g w).1 = inr tt ->
   forall w2,
     bq_tables w2 = bq_tables w1 -> no_not_found (failing w2) ->
     (period_jobs g w2 = period_jobs g w \/
      exists later,
        bq_jobs w2 = bq_jobs w ++ later /\
        Forall (fun j => forall t, Job.start_time j = Some t ->
                                   timestamp_of_date (date_tc g) <= t) later) ->
     (main g w2).2 = w2) /\
  (forall table_name,
     can_insert_data g table_name w = (inr false, w) ->
     bq_tables w1 !! billing_table_id g table_name
       = bq_tables w !! billing_table_id g table_name /\
     length (rows_at w1 (billing_table_id g table_name))
       = length (rows_at w (billing_table_id g table_name))) /\
  (no_not_found (failing w) -> one_load_per_month w -> one_load_per_month w1) /\
  (forall table_name,
     table_name ∈ (reports g).*1 ->
     no_not_found (failing w) ->
     rows_at w1 (billing_table_id g table_name)
       <> rows_at w (billing_table_id g table_name) ->
     (can_insert_data g table_name w1).1 <> inr true /\
     ((forall r, failing w r = None) ->
      can_insert_data g table_name w1 = (inr false, w1))) /\
  (forall table_name func_ref,
     (table_name, func_ref) ∈ reports g ->
     (forall r, failing w r = None) ->
     (main g w).1 = inr tt ->
     can_insert_data g table_name w = (inr true, w) ->
     rows_at w1 (billing_table_id g table_name)
       = rows_at w (billing_table_id g table_name) ->
     can_insert_data g table_name w1 = (inr true, w1) /\
     func_ref w1 = (inr [], w1)).
Proof.
  intros Hl. cbv zeta. unfold main.
  pose proof (reports_ok g Hl) as Hok.
  assert (Forall (fun it : string * M DataFrame => forall w, (it.2 w).2 = w) (reports g))
    as Hws by (eapply Forall_impl; [exact Hok|]; by intros it []).
  destruct (for_reports_frame g (reports g) w Hws) as (Hj & Hf & _).
  split_and!.
  - intros Hnf.
    apply (for_reports_settled g (reports g) (reports_NoDup g) Hok w); try done.
    + unfold period_jobs. by rewrite Hj.
    + by rewrite Hf.
  - intros Hres w2 Htab Hnf2 Hjobs.
    apply (for_reports_settled g (reports g) (reports_NoDup g) Hok w); try done.
    + intros t _. by rewrite Htab.
    + destruct Hjobs as [Hp|(later & Hb & Hlater)]; [done|].
      by apply (period_jobs_later g w w2 later).
    + intros e He. rewrite Hres in He. discriminate.
  - intros table_name Hgate. rewrite can_insert_data_eq in Hgate.
    injection Hgate as Hgate.
    pose proof (for_reports_denied g (reports g) table_name Hws w Hgate) as Ht.
    split; [done|]. unfold rows_at. by rewrite Ht.
  - intros Hnf. by apply for_reports_one_load.
  - intros table_name Hin Hnf Hch. rewrite can_insert_data_eq. cbn [fst].
    pose proof (for_reports_gained g (reports g) table_name (reports_NoDup g) Hok Hin w
                  Hnf Hch) as Hno.
    split; [done|]. intros Hnone. f_equal.
    unfold gate_outcome in *. rewrite Hf, !Hnone in *.
    destruct (bq_tables _ !! _) as [t|]; [|done].
    by destruct (bool_decide _).
  - intros table_name func_ref Hin Hnone Hres Hgate Hrows.
    rewrite can_insert_data_eq in Hgate |- *. injection Hgate as Hgate.
    destruct (for_reports_empty_again g (reports g) table_name func_ref
                (reports_NoDup g) Hok Hin w Hnone Hres Hgate Hrows) as [H1 H2].
    split; [by rewrite H1|done].
Qed.

(** Two finished queries in February 2024, run twice on 2024-03-15: the
    second run changes nothing, also when the metadata has gained a query
    of 2024-03-15 and every load is refused; the detail report is skipped
    in it. *)
Lemma main_idempotent_witness :
  (main globals_march (main globals_march world_busy).2).2
    = (main globals_march world_busy).2 /\
  (let w2 :=
     {| bq_tables := bq_tables (main globals_march world_busy).2;
        bq_jobs := jobs_two_tib ++ [job_march_15];
        cs_blobs := [];
        failing := fun r => match r with
                            | LoadTable _ => Some (ServiceError "403")
                            | _ => None
                            end |} in
   (main globals_march w2).2 = w2) /\
  can_insert_data globals_march "bq_jobs_costs_detail" (main globals_march world_busy).2
    = (inr false, (main globals_march world_busy).2).
Proof.
  assert (loaded globals_march) as Hl.
  { split; [|reflexivity]. unfold valid. repeat split; by vm_compute. }
  destruct (main_idempotent globals_march world_busy Hl) as (H1 & H2 & _ & _ & H5 & _).
  split_and!.
  - apply H1. intros r. discriminate.
  - cbv zeta. apply H2; [reflexivity|reflexivity| |].
    + intros [| | |]; discriminate.
    + right. exists [job_march_15]. split; [reflexivity|].
      apply Forall_cons_2; [|apply Forall_nil_2].
      intros t [= <-]. reflexivity.
  - apply (H5 "bq_jobs_costs_detail"%string).
    + vm_compute. apply list_elem_of_further, list_elem_of_here.
    + intros r. discriminate.
    + vm_compute. discriminate.
    + reflexivity.
Defined.

(** * Further properties *)

(** ** More on the module globals *)

Lemma str_split_cons sep s : exists x xs, str_split sep s = x :: xs.
Proof.
  destruct s as [|c s]; cbn; [by eexists _, _|].
  destruct (Ascii.eqb c sep); [by eexists _, _|].
  destruct (str_split sep s); by eexists _, _.
Qed.

Lemma str_split_spec (sep : ascii) (s : string) :
  str_split sep s <> [] /\
  length (str_split sep s) = S (count_char sep s) /\
  Forall (fun x => count_char sep x = 0%nat) (str_split sep s) /\
  str_join sep (str_split sep s) = s.
Proof.
  induction s as [|c s (Hne & Hlen & Hall & Hjoin)].
  - cbn. split_and!; try done. by repeat constructor.
  - cbn [str_split count_char].
    destruct (Ascii.eqb c sep) eqn:E.
    + apply Ascii.eqb_eq in E as ->.
      split_and!; try done.
      * cbn. by rewrite Hlen.
      * by constructor.
      * destruct (str_split sep s) as [|x xs] eqn:Es; [done|].
        cbn [str_join]. cbn. by rewrite <- Hjoin.
    + destruct (str_split sep s) as [|x xs] eqn:Es; [done|].
      split_and!; try done.
      * apply Forall_cons in Hall as [Hx Hxs].
        constructor; [|done]. cbn. by rewrite E, Hx.
      * destruct xs as [|y ys]; cbn in *; by rewrite <- Hjoin.
Qed.

(** X1. [s.split(',')] never returns an empty list, it has one item more
    than [s] has commas, no item holds a comma, and joining the items
    with commas gives [s] back. *)
Theorem str_split_join (sep : ascii) (s : string) :
  str_split sep s <> [] /\
  length (str_split sep s) = S (count_char sep s) /\
  Forall (fun x => count_char sep x = 0%nat) (str_split sep s) /\
  str_join sep (str_split sep s) = s.
Proof. apply str_split_spec. Qed.

(** X2. Loading the module fails with [KeyError] on the first of the six
    variables that is not set, whatever the date. *)
Theorem module_init_key_error (environ : gmap string string) (today : date)
    (before : list string) (k : string) (after : list string) :
  required_vars = before ++ k :: after ->
  Forall (fun v => is_Some (environ !! v)) before ->
  environ !! k = None ->
  module_init environ today = inl (KeyError k).
Proof.
  intros Hsplit Hbefore Hk. unfold module_init, getenv.
  unfold required_vars in Hsplit.
  repeat (destruct before as [|b before];
    [injection Hsplit as <- <-; by rewrite Hk
    |injection Hsplit as <- Hsplit;
     apply Forall_cons in Hbefore as [[? ->] Hbefore]]).
  by destruct before.
Qed.

Lemma module_init_key_error_witness :
  module_init (delete "BUCKET_NAME"%string environ_example) (mkdate 2024 3 15)
    = inl (KeyError "BUCKET_NAME").
Proof.
  apply (module_init_key_error _ _ ["PROJECT_ID"%string] "BUCKET_NAME"%string
           ["MAIN_TABLE_NAME"; "BIQUERY_PROJECTS"; "BILLING_PROJECT_ID";
            "BILLING_DATASET_ID"]%string).
  - reflexivity.
  - apply Forall_cons_2; [eexists; reflexivity|apply Forall_nil_2].
  - reflexivity.
Defined.



(** ** More on the reporting period *)

Lemma previous_month_first_month d :
  year d = 1 -> month d = 1 -> previous_month d = None.
Proof.
  destruct d as [y m d]. cbn [year month]. intros -> ->.
  unfold previous_month, sub_days, toordinal. cbn [year month day].
  replace (ymd2ord 1 1 d - d) with 0
    by (unfold ymd2ord; change (days_before_year 1 + days_before_month 1 1) with 0; lia).
  reflexivity.
Qed.

Lemma previous_month_ext (d1 d2 : date) :
  valid d1 -> valid d2 -> year d1 = year d2 -> month d1 = month d2 ->
  previous_month d1 = previous_month d2.
Proof.
  intros Hv1 Hv2 Hy Hm.
  destruct (decide ((year d1, month d1) = (1, 1))) as [E|Hne].
  - injection E as E1 E2.
    rewrite !previous_month_first_month; congruence.
  - rewrite !previous_month_eq; try done; [|congruence].
    cbv zeta. by rewrite Hy, Hm.
Qed.

(** X4. The period depends on the year and month of [today] only: on any
    two days of one month the module computes the same first day, last day
    and key (or fails alike), so a run late in the month checks for the
    same rows as a run early in it. *)
Theorem previous_month_same_month (d1 d2 : date) :
  valid d1 -> valid d2 -> year d1 = year d2 -> month d1 = month d2 ->
  previous_month d1 = previous_month d2.
Proof. intros Hv1 Hv2 Hy Hm. by apply previous_month_ext. Qed.

Lemma previous_month_same_month_witness :
  previous_month (mkdate 2024 3 1) = previous_month (mkdate 2024 3 31).
Proof.
  apply previous_month_same_month; try reflexivity;
    unfold valid; repeat split; by vm_compute.
Defined.

(** X5. The period is the whole month just before that of [today]: its
    last day is the eve of the first day of today's month, it has as many
    days as that month has, and it ends before [today]. *)
Theorem previous_month_adjacent (today first_day last_day : date) (key : string) :
  valid today ->
  previous_month today = Some (first_day, last_day, key) ->
  toordinal last_day + 1 = ymd2ord (year today) (month today) 1 /\
  toordinal last_day - toordinal first_day + 1
    = days_in_month (year first_day) (month first_day) /\
  toordinal first_day <= toordinal last_day < toordinal today /\
  valid first_day /\ valid last_day.
Proof.
  intros Hv Hp.
  destruct (decide ((year today, month today) = (1, 1))) as [E|Hne].
  { injection E as E1 E2. by rewrite previous_month_first_month in Hp. }
  rewrite previous_month_eq in Hp by done. cbv zeta in Hp.
  injection Hp as <- <- <-.
  destruct Hv as (Hy & Hm & Hd).
  pose proof (month_before_range (year today) _ Hm) as Hpm.
  pose proof (ymd2ord_day0 (year today) _ Hm) as H0.
  set (py := (month_before (year today) (month today)).1) in *.
  set (pm := (month_before (year today) (month today)).2) in *.
  pose proof (days_in_month_range py pm Hpm) as Hdim.
  assert (1 <= py <= MAXYEAR) as Hpy.
  { subst py. unfold month_before, MAXYEAR, MINYEAR in *.
    destruct (Z.eqb_spec (month today) 1) as [E|E]; cbn; [|lia].
    assert (year today <> 1) by (intros E'; apply Hne; by rewrite E, E'). lia. }
  unfold toordinal, valid, MINYEAR. cbn [year month day].
  unfold ymd2ord in *. split_and!; lia.
Qed.

Lemma previous_month_adjacent_witness :
  toordinal (mkdate 2024 2 29) + 1 = ymd2ord 2024 3 1 /\
  toordinal (mkdate 2024 2 29) - toordinal (mkdate 2024 2 1) + 1 = 29.
Proof.
  destruct (previous_month_adjacent (mkdate 2024 3 15) (mkdate 2024 2 1)
              (mkdate 2024 2 29) "202402") as (H1 & H2 & _).
  - unfold valid. repeat split; by vm_compute.
  - reflexivity.
  - exact (conj H1 H2).
Defined.

Lemma loaded_key_iff (g1 g2 : globals) :
  loaded g1 -> loaded g2 ->
  (str_last_month g1 = str_last_month g2 <->
   year (date_tc g1) = year (date_tc g2) /\ month (date_tc g1) = month (date_tc g2)).
Proof.
  intros Hl1 Hl2. split.
  - intros Hk.
    pose proof (loaded_not_first_month g1 Hl1) as Hn1.
    pose proof (loaded_not_first_month g2 Hl2) as Hn2.
    destruct (loaded_period g1 Hl1 Hn1) as (_ & _ & Hk1).
    destruct (loaded_period g2 Hl2 Hn2) as (_ & _ & Hk2).
    cbv zeta in *. rewrite Hk1, Hk2 in Hk. clear Hk1 Hk2.
    destruct Hl1 as [(Hy1 & Hm1 & _) _], Hl2 as [(Hy2 & Hm2 & _) _].
    apply (f_equal decimal_value) in Hk.
    unfold MINYEAR, MAXYEAR in *.
    assert (forall y m, 1 <= y <= 9999 -> 1 <= m <= 12 ->
              0 <= (month_before y m).1 <= 9999 /\ 0 <= (month_before y m).2 <= 99) as Hb.
    { intros y m ? ?. unfold month_before. destruct (Z.eqb_spec m 1); cbn; lia. }
    rewrite !decimal_value_key in Hk by (apply Hb; done).
    revert Hk. unfold month_before.
    destruct (Z.eqb_spec (month (date_tc g1)) 1), (Z.eqb_spec (month (date_tc g2)) 1);
      cbn [fst snd]; lia.
  - intros [Hy Hm].
    destruct Hl1 as [Hv1 Hp1], Hl2 as [Hv2 Hp2].
    rewrite (previous_month_ext _ _ Hv1 Hv2 Hy Hm) in Hp1.
    congruence.
Qed.

(** X6. Two loaded modules have the same key exactly when their dates lie
    in the same month of the same year: rows of one month never stand for
    another month in the idempotence check. *)
Theorem str_last_month_inj (g1 g2 : globals) :
  loaded g1 -> loaded g2 ->
  (str_last_month g1 = str_last_month g2 <->
   year (date_tc g1) = year (date_tc g2) /\ month (date_tc g1) = month (date_tc g2)).
Proof. apply loaded_key_iff. Qed.

Lemma str_last_month_inj_witness :
  str_last_month globals_march <> str_last_month globals_april.
Proof.
  assert (loaded globals_april) as Hl
    by (split; [unfold valid; repeat split; by vm_compute|reflexivity]).
  intros Hk.
  apply (str_last_month_inj globals_march globals_april loaded_globals_march Hl) in Hk
    as [_ Hm].
  discriminate Hm.
Defined.

(** ** More on the storage report *)

Lemma fold_left_sizes (bs : list blob) (a : Z) :
  fold_left (fun acc b => acc + blob_size b) bs a = a + total_size bs.
Proof.
  unfold total_size. revert a.
  induction bs as [|b bs IH]; intros a; cbn [fold_left foldr]; [lia|].
  rewrite IH. lia.
Qed.

Lemma storage_usage_loop_ok g w projects data :
  Forall (fun p => failing w (GetTable (main_table_id g p)) = None /\
                   failing w (ListBlobs (data_bucket_name g) p) = None /\
                   is_Some (bq_tables w !! main_table_id g p)) projects ->
  storage_usage_loop g projects data w
    = (inr (data ++ (storage_row g w <$> projects)), w).
Proof.
  intros Hall. revert data.
  induction Hall as [|p ps (Hg & Hl & [t Ht]) _ IH]; intros data.
  - cbn. by rewrite app_nil_r.
  - cbn [storage_usage_loop]. unfold mbind, M_bind, BQ_get_table, CS_list_blobs.
    unfold main_table_id in *. rewrite Hg, Ht, Hl, IH.
    rewrite fold_left_sizes, Z.add_0_l, <- app_assoc.
    cbn [fmap list_fmap]. unfold storage_row, blobs_under, main_table_id.
    by rewrite Ht.
Qed.

(** X7. When the main table of every tracked dataset exists and the
    service answers, the storage report has one row per dataset, in the
    order of the configuration: the dataset, the period key, the sum of
    the sizes of the blobs of the data bucket whose name starts with the
    dataset name, and the byte size of its main table. Nothing is
    written. *)
Theorem generate_storage_usage_rows (g : globals) (w : world) :
  Forall (fun p => failing w (GetTable (main_table_id g p)) = None /\
                   failing w (ListBlobs (data_bucket_name g) p) = None /\
                   is_Some (bq_tables w !! main_table_id g p))
         (bigquery_projects g) ->
  generate_storage_usage g w = (inr (storage_row g w <$> bigquery_projects g), w).
Proof. intros Hall. unfold generate_storage_usage. by rewrite storage_usage_loop_ok. Qed.

Lemma generate_storage_usage_rows_witness :
  generate_storage_usage globals_one world_storage
    = (inr [[ ("project", VString "p1"); ("month", VString "202402");
              ("cloud_storage_bytes", VInt 60);
              ("bigquery_storage_bytes", VInt 1000) ]%string], world_storage).
Proof.
  rewrite generate_storage_usage_rows.
  - reflexivity.
  - apply Forall_cons_2; [|apply Forall_nil_2].
    split_and!; [reflexivity|reflexivity|eexists; reflexivity].
Defined.

Lemma prefix_trans (a b c : string) :
  String.prefix a b = true -> String.prefix b c = true -> String.prefix a c = true.
Proof.
  revert b c. induction a as [|x a IH]; intros [|y b] [|z c]; cbn; try done.
  destruct (ascii_dec x y) as [->|]; [|done].
  destruct (ascii_dec y z) as [->|]; [|done].
  destruct (ascii_dec z z); [|done]. apply IH.
Qed.

Lemma total_size_filter_le (P Q : blob -> Prop) `{!forall b, Decision (P b)}
    `{!forall b, Decision (Q b)} (bs : list blob) :
  (forall b, Q b -> P b) -> Forall (fun b => 0 <= blob_size b) bs ->
  total_size (filter Q bs) <= total_size (filter P bs).
Proof.
  intros Himp Hall. induction Hall as [|b bs Hb _ IH]; [done|].
  rewrite !filter_cons. unfold total_size in *.
  destruct (decide (Q b)) as [HQ|HQ].
  - rewrite decide_True by auto. cbn [foldr]. lia.
  - destruct (decide (P b)); cbn [foldr]; lia.
Qed.

(** X8. Blobs are matched by name prefix alone: when the name of a tracked
    dataset is a prefix of the name of another one, every blob counted for
    the second is counted for the first as well, and with sizes that are
    not negative the first is reported at least as many bytes. *)
Theorem blobs_under_prefix (w : world) (bucket p q : string) :
  String.prefix p q = true ->
  (forall b, b ∈ blobs_under w bucket q -> b ∈ blobs_under w bucket p) /\
  (Forall (fun b => 0 <= blob_size b) (cs_blobs w) ->
   total_size (blobs_under w bucket q) <= total_size (blobs_under w bucket p)).
Proof.
  intros Hpq.
  assert (forall b : blob,
    blob_bucket b = bucket /\ String.prefix q (blob_name b) ->
    blob_bucket b = bucket /\ String.prefix p (blob_name b)) as Himp.
  { intros b [Hb Hq]. split; [done|]. apply Is_true_true.
    apply Is_true_true in Hq. by apply (prefix_trans p q). }
  split.
  - intros b. unfold blobs_under. rewrite !list_elem_of_filter. intros [H ?]. auto.
  - intros Hall. by apply total_size_filter_le.
Qed.

(** Dataset "p" is charged the blobs of dataset "p1" too. *)
Lemma blobs_under_prefix_witness :
  total_size (blobs_under world_storage "bucket" "p1")
    <= total_size (blobs_under world_storage "bucket" "p").
Proof.
  apply (blobs_under_prefix world_storage "bucket" "p" "p1"); [reflexivity|].
  repeat (apply Forall_cons_2; [by vm_compute|]). apply Forall_nil_2.
Defined.

(** ** More on the cost reports *)

(** X9. The per-query detail report has exactly one row per selected job:
    a row is in it if and only if it is the row of a job of the metadata
    whose job_type is 'QUERY', whose state is 'DONE' and whose start_time
    lies between midnight of the first day and midnight of the last day of
    the period, both included; jobs with a NULL in one of these columns
    are left out, and no job gives no row. *)
Theorem costs_detail_rows (first_day last_day : date) (jobs : list job) :
  length (costs_detail_query first_day last_day jobs)
    = length (selected first_day last_day jobs) /\
  (length (costs_detail_query first_day last_day jobs) <= length jobs)%nat /\
  forall r, r ∈ costs_detail_query first_day last_day jobs <->
    exists j, j ∈ jobs /\ r = detail_select j /\
      Job.job_type j = Some "QUERY"%string /\ Job.state j = Some "DONE"%string /\
      exists t, Job.start_time j = Some t /\
        timestamp_of_date first_day <= t <= timestamp_of_date last_day.
Proof.
  unfold costs_detail_query.
  assert (length (detail_select <$> merge_sort job_le (selected first_day last_day jobs))
          = length (selected first_day last_day jobs)) as Hlen.
  { rewrite length_fmap. apply Permutation_length, merge_sort_Permutation. }
  split_and!.
  - done.
  - rewrite Hlen. apply length_filter.
  - intros r. rewrite list_elem_of_fmap. split.
    + intros (j & -> & Hj). rewrite merge_sort_Permutation in Hj.
      apply selected_iff in Hj as (Hin & Hty & Hst & Ht). by exists j.
    + intros (j & Hin & -> & Hty & Hst & Ht). exists j. split; [done|].
      rewrite merge_sort_Permutation. by apply selected_iff.
Qed.

Lemma length_by_key_cons {A K} `{EqDecision K} (f : A -> K) (ks : list K)
    (x : A) (l : list A) :
  NoDup ks ->
  foldr (fun k acc => Z.of_nat (length (filter (fun y => f y = k) (x :: l))) + acc) 0 ks
  = foldr (fun k acc => Z.of_nat (length (filter (fun y => f y = k) l)) + acc) 0 ks
    + (if decide (f x ∈ ks) then 1 else 0).
Proof.
  induction 1 as [|k ks Hk Hnd IH].
  - cbn [foldr]. rewrite decide_False by apply not_elem_of_nil. lia.
  - cbn [foldr]. rewrite IH, filter_cons.
    destruct (decide (f x = k)) as [E|E].
    + rewrite (decide_True (P := f x ∈ k :: ks)) by (rewrite E; apply list_elem_of_here).
      rewrite (decide_False (P := f x ∈ ks)) by (by rewrite E).
      cbn [length]. lia.
    + destruct (decide (f x ∈ ks)) as [Hin|Hin].
      * rewrite decide_True by (by apply list_elem_of_further). lia.
      * rewrite decide_False; [lia|].
        intros [?|?]%elem_of_cons; done.
Qed.

(** Counting a list by the classes of a key counts it once. *)
Lemma length_by_key {A K} `{EqDecision K} (f : A -> K) (ks : list K) (l : list A) :
  NoDup ks -> (forall x, x ∈ l -> f x ∈ ks) ->
  foldr (fun k acc => Z.of_nat (length (filter (fun x => f x = k) l)) + acc) 0 ks
    = Z.of_nat (length l).
Proof.
  intros Hnd. induction l as [|x l IH]; intros Hin.
  - clear. induction ks as [|k ks IH]; [done|].
    cbn [foldr]. rewrite IH. by rewrite filter_nil.
  - rewrite length_by_key_cons by done.
    rewrite IH by (intros y Hy; apply Hin; by apply list_elem_of_further).
    rewrite decide_True by (apply Hin, list_elem_of_here).
    cbn [length]. lia.
Qed.

(** X10. The per-project summary has one row for each combination of
    user_email, project_id and month that occurs among the selected jobs,
    no combination twice, and the num_queries of its rows add up to the
    number of selected jobs: every selected job is counted in exactly one
    row. *)
Theorem per_project_partition (first_day last_day : date) (jobs : list job) :
  NoDup (summary_key <$> costs_per_project_query first_day last_day jobs) /\
  total_queries (costs_per_project_query first_day last_day jobs)
    = Z.of_nat (length (selected first_day last_day jobs)) /\
  (forall j, j ∈ selected first_day last_day jobs ->
     (vstr (Job.user_email j), vstr (Job.project_id j), vstr (month_of j))
       ∈ summary_key <$> costs_per_project_query first_day last_day jobs).
Proof.
  unfold costs_per_project_query, costs_subquery. cbv zeta.
  set (rs := costs_select <$> selected first_day last_day jobs).
  set (ks := remove_dups (group_key_of <$> rs)).
  assert (forall k grp, summary_key (per_project_select k grp)
                        = (vstr k.1.1, vstr k.1.2, vstr k.2)) as Hkey by done.
  split_and!.
  - rewrite <- list_fmap_compose.
    apply (NoDup_fmap_2_strong _ ks); [|apply NoDup_remove_dups].
    intros k1 k2 _ _. cbn. rewrite !Hkey. intros [= H1 H2 H3].
    apply vstr_inj in H1, H2, H3.
    destruct k1 as [[? ?] ?], k2 as [[? ?] ?]; cbn in *; congruence.
  - transitivity (foldr (fun k acc =>
        Z.of_nat (length (filter (fun r => group_key_of r = k) rs)) + acc) 0 ks).
    + clear. induction ks as [|k ks IH]; [done|]. cbn. by rewrite <- IH.
    + rewrite length_by_key.
      * subst rs. by rewrite length_fmap.
      * apply NoDup_remove_dups.
      * intros r Hr. subst ks. apply elem_of_remove_dups, list_elem_of_fmap. by exists r.
  - intros j Hj. rewrite <- list_fmap_compose. apply list_elem_of_fmap.
    exists (group_key_of (costs_select j)). split; [done|].
    subst ks rs. apply elem_of_remove_dups. rewrite <- list_fmap_compose.
    apply list_elem_of_fmap. by exists j.
Qed.




(** ** More on storing and on the pipeline *)

Lemma rows_of_month_append key df t :
  rows_of_month key (append_load df t)
    = rows_of_month key t ++ filter (fun r => cell "month" r = VString key) df.
Proof. unfold rows_of_month. by rewrite table_rows_append_load, filter_app. Qed.

(** X12. [store_df_in_bq] either fails, with the exception the service
    answers the load with, and writes nothing, or puts the rows of the
    frame after the rows the table had (creating the table when it was
    absent) and leaves every other table alone. After a frame with a row of
    the period month is stored, [can_insert_data] does not answer true for
    that table unless the service answers [NotFound] for a table that
    exists, and it answers false when the service answers every request. *)
Theorem store_df_in_bq_then_check (g : globals) (df : DataFrame) (table_name : string)
    (w : world) :
  (exists e, failing w (LoadTable (billing_table_id g table_name)) = Some e /\
     store_df_in_bq g df table_name w = (inl e, w)) \/
  (exists w',
     store_df_in_bq g df table_name w = (inr tt, w') /\
     rows_at w' (billing_table_id g table_name)
       = rows_at w (billing_table_id g table_name) ++ df /\
     is_Some (bq_tables w' !! billing_table_id g table_name) /\
     (forall id', id' <> billing_table_id g table_name ->
        bq_tables w' !! id' = bq_tables w !! id') /\
     (Exists (fun r => cell "month" r = VString (str_last_month g)) df ->
      (no_not_found (failing w) -> (can_insert_data g table_name w').1 <> inr true) /\
      ((forall r, failing w r = None) ->
       can_insert_data g table_name w' = (inr false, w')))).
Proof.
  rewrite store_df_in_bq_eq.
  destruct (failing w (LoadTable _)) as [e|] eqn:Hload; [left; by exists e|].
  right. eexists. split; [reflexivity|].
  set (table_id := billing_table_id g table_name).
  split_and!.
  - rewrite rows_at_loaded_world. by rewrite decide_True.
  - rewrite lookup_loaded_world. by eexists.
  - intros id' Hne. cbn. by rewrite lookup_insert_ne.
  - intros Hex. rewrite can_insert_data_eq. cbn [fst]. fold table_id.
    assert (forall t, rows_of_month (str_last_month g) (append_load df t) <> []) as Hrows.
    { intros t. rewrite rows_of_month_append. intros [_ Hnil]%app_nil.
      apply Exists_exists in Hex as (r & Hr & Hm).
      by eapply (filter_nil_not_elem_of _ _ r Hnil). }
    split.
    + intros Hnf. eapply gate_outcome_rows; [done|apply lookup_loaded_world|done].
    + intros Hnone. unfold gate_outcome. rewrite lookup_loaded_world.
      change (failing (loaded_world table_id df w)) with (failing w).
      rewrite !Hnone. by rewrite bool_decide_eq_false_2.
Qed.

Lemma store_df_in_bq_then_check_witness :
  exists w',
    store_df_in_bq globals_march
      [[("project", VString "p1"); ("month", VString "202402")]%string]
      "storage_usage" world_fresh = (inr tt, w') /\
    can_insert_data globals_march "storage_usage" w' = (inr false, w').
Proof.
  destruct (store_df_in_bq_then_check globals_march
              [[("project", VString "p1"); ("month", VString "202402")]%string]
              "storage_usage" world_fresh) as [(e & He & _)|(w' & Hs & _ & _ & _ & Hc)].
  - discriminate He.
  - exists w'. split; [exact Hs|]. apply Hc; [|reflexivity].
    apply Exists_cons_hd. reflexivity.
Defined.

Lemma reports_read_only g :
  Forall (fun it : string * M DataFrame => forall w, (it.2 w).2 = w) (reports g).
Proof.
  unfold reports. repeat apply Forall_cons_2; try apply Forall_nil_2; cbn [snd]; intros w.
  - apply storage_usage_loop_world.
  - unfold generate_bq_jobs_costs_detail, BQ_query. by destruct (failing w _).
  - unfold generate_bq_jobs_costs_per_project, BQ_query. by destruct (failing w _).
Qed.

Lemma grows_refl w : grows w w.
Proof. split_and!; try done. intros id t Ht. by exists t. Qed.

Lemma grows_trans w1 w2 w3 : grows w1 w2 -> grows w2 w3 -> grows w1 w3.
Proof.
  intros (Hj1 & Hb1 & Hf1 & Ht1) (Hj2 & Hb2 & Hf2 & Ht2).
  split_and!; try congruence.
  intros id t Ht. destruct (Ht1 id t Ht) as (t2 & Ht2' & Hp1).
  destruct (Ht2 id t2 Ht2') as (t3 & Ht3 & Hp2).
  exists t3. split; [done|]. by etrans.
Qed.

Lemma grows_loaded_world table_id df w : grows w (loaded_world table_id df w).
Proof.
  split_and!; try done. intros id t Ht.
  destruct (decide (id = table_id)) as [->|Hne].
  - rewrite lookup_loaded_world, Ht. cbn [default]. eexists. split; [done|].
    destruct df; cbn; [done|]. by apply prefix_app_r.
  - exists t. cbn. by rewrite lookup_insert_ne.
Qed.

Lemma for_reports_grows g items w :
  Forall (fun it : string * M DataFrame => forall w, (it.2 w).2 = w) items ->
  grows w (for_reports g items w).2.
Proof.
  intros Hall. revert w. induction Hall as [|[t gen] items Hgen _ IH]; intros w.
  { apply grows_refl. }
  rewrite for_reports_cons.
  destruct (report_step_cases g t gen w Hgen)
    as [(e & ->)|[(-> & _)|(df & _ & _ & _ & ->)]]; cbn [snd].
  - apply grows_refl.
  - apply IH.
  - eapply grows_trans; [apply grows_loaded_world|apply IH].
Qed.

(** X13. A run of [main], finished or interrupted by an exception, never
    deletes or rewrites: the blobs and every table other than the three
    report tables are as before, and a table that existed still exists
    with the loads it had, in order, before any new one. *)
Theorem main_append_only (g : globals) (w : world) :
  cs_blobs (main g w).2 = cs_blobs w /\
  (forall table_id,
     table_id <> billing_table_id g "storage_usage" ->
     table_id <> billing_table_id g "bq_jobs_costs_detail" ->
     table_id <> billing_table_id g "bq_jobs_costs_per_project" ->
     bq_tables (main g w).2 !! table_id = bq_tables w !! table_id) /\
  (forall table_id t, bq_tables w !! table_id = Some t ->
     exists t1, bq_tables (main g w).2 !! table_id = Some t1 /\
                tbl_loads t `prefix_of` tbl_loads t1).
Proof.
  unfold main.
  destruct (for_reports_grows g (reports g) w (reports_read_only g)) as (_ & Hb & _ & Ht).
  destruct (for_reports_frame g (reports g) w (reports_read_only g)) as (_ & _ & Hfr).
  split_and!; try done.
  intros id H1 H2 H3. apply Hfr. cbn.
  intros t [->|[->|[->|?%elem_of_nil]%elem_of_cons]%elem_of_cons]%elem_of_cons; done.
Qed.

Lemma main_append_only_witness :
  exists t1, bq_tables (main globals_march world_february).2
               !! "billing.reports.storage_usage"%string = Some t1 /\
    [[[("project", VString "p1"); ("month", VString "202402");
       ("cloud_storage_bytes", VInt 60);
       ("bigquery_storage_bytes", VInt 1000)]%string]] `prefix_of` tbl_loads t1.
Proof.
  destruct (main_append_only globals_march world_february) as (_ & _ & H).
  apply (H "billing.reports.storage_usage"%string
           {| tbl_loads := [[[("project", VString "p1"); ("month", VString "202402");
                               ("cloud_storage_bytes", VInt 60);
                               ("bigquery_storage_bytes", VInt 1000)]%string]] |}).
  reflexivity.
Defined.

Lemma costs_detail_rows_witness :
  detail_select job_null_cache_hit
    ∈ costs_detail_query (mkdate 2024 2 1) (mkdate 2024 2 29)
        [job_last_day_noon; job_null_cache_hit].
Proof.
  destruct (costs_detail_rows (mkdate 2024 2 1) (mkdate 2024 2 29)
              [job_last_day_noon; job_null_cache_hit]) as (_ & _ & H).
  apply H. exists job_null_cache_hit. split_and!; try reflexivity.
  - apply list_elem_of_further, list_elem_of_here.
  - exists feb10. split; [reflexivity|]. split; by vm_compute.
Defined.

Lemma per_project_partition_witness :
  total_queries (costs_per_project_query (mkdate 2024 2 1) (mkdate 2024 2 29) jobs_two_tib)
    = 2.
Proof.
  destruct (per_project_partition (mkdate 2024 2 1) (mkdate 2024 2 29) jobs_two_tib)
    as (_ & H & _).
  rewrite H. reflexivity.
Defined.



Lemma for_reports_adds g items w :
  Forall (fun it => gen_ok g it.2) items ->
  adds_rows_of (str_last_month g) w (for_reports g items w).2.
Proof.
  intros Hall. revert w. induction Hall as [|[t gen] items Hgen _ IH]; intros w.
  { intros id. exists []. by rewrite app_nil_r. }
  rewrite for_reports_cons.
  destruct (report_step_cases g t gen w (gen_world _ _ Hgen))
    as [(e & ->)|[(-> & _)|(df & _ & Hdf & _ & ->)]]; cbn [snd].
  - intros id. exists []. by rewrite app_nil_r.
  - apply IH.
  - intros id. destruct (IH (loaded_world (billing_table_id g t) df w) id)
      as (added & Hrows & Hall).
    rewrite rows_at_loaded_world in Hrows.
    destruct (decide (id = billing_table_id g t)) as [->|Hne].
    + exists (df ++ added). rewrite Hrows, <- app_assoc. split; [done|].
      apply Forall_app. split; [|done].
      apply (gen_month _ _ Hgen w). cbn [snd]. by rewrite Hdf.
    + by exists added.
Qed.

(** X15. Whatever the tables held, a run of a loaded module only adds rows
    of its own period: the rows of every table after the run are its rows
    before the run followed by rows whose month column is the period key,
    so the rows of any other month are exactly those it had. *)
Theorem main_adds_period_rows (g : globals) (w : world) (table_id : string) :
  loaded g ->
  exists added,
    rows_at (main g w).2 table_id = rows_at w table_id ++ added /\
    Forall (fun r => cell "month" r = VString (str_last_month g)) added /\
    forall m, m <> str_last_month g ->
      filter (fun r => cell "month" r = VString m) (rows_at (main g w).2 table_id)
        = filter (fun r => cell "month" r = VString m) (rows_at w table_id).
Proof.
  intros Hl.
  destruct (for_reports_adds g (reports g) w (reports_ok g Hl) table_id)
    as (added & Hrows & Hall).
  exists added. unfold main. split_and!; try done.
  intros m Hm. rewrite Hrows, filter_app.
  assert (filter (fun r => cell "month" r = VString m) added = []) as ->;
    [|by rewrite app_nil_r].
  clear Hrows. induction Hall as [|r l Hr _ IH]; [done|].
  rewrite filter_cons_False; [done|]. rewrite Hr. congruence.
Qed.

Lemma main_adds_period_rows_witness :
  exists added,
    rows_at (main globals_march world_busy).2 "billing.reports.storage_usage"
      = rows_at world_busy "billing.reports.storage_usage" ++ added /\
    Forall (fun r => cell "month" r = VString "202402") added.
Proof.
  destruct (main_adds_period_rows globals_march world_busy
              "billing.reports.storage_usage" loaded_globals_march)
    as (added & H1 & H2 & _).
  exists added. exact (conj H1 H2).
Defined.




(** X17. Every row of every report a loaded module generates carries the
    period key in its month column, the key [can_insert_data] looks for:
    also in the two cost reports, where the column is computed from the
    start_time of the jobs. *)
Theorem reports_month (g : globals) (w : world) (table_name : string)
    (func_ref : M DataFrame) (df : DataFrame) :
  loaded g ->
  (table_name, func_ref) ∈ reports g ->
  (func_ref w).1 = inr df ->
  Forall (fun r => cell "month" r = VString (str_last_month g)) df /\
  (func_ref w).2 = w.
Proof.
  intros Hl Hin Hdf.
  pose proof (reports_ok g Hl) as Hok. rewrite Forall_forall in Hok.
  specialize (Hok _ Hin). cbn [snd] in Hok.
  split; [by apply (gen_month _ _ Hok w)|apply (gen_world _ _ Hok)].
Qed.

Lemma reports_month_witness :
  Forall (fun r => cell "month" r = VString "202402")
    (costs_per_project_query (mkdate 2024 2 1) (mkdate 2024 2 29) jobs_two_tib).
Proof.
  apply (reports_month globals_march world_busy "bq_jobs_costs_per_project"
           (generate_bq_jobs_costs_per_project globals_march)).
  - exact loaded_globals_march.
  - do 2 apply list_elem_of_further. apply list_elem_of_here.
  - reflexivity.
Defined.

Lemma rows_of_month_rows_at key w table_id :
  filter (fun r => cell "month" r = VString key) (rows_at w table_id)
    = rows_of_month key (default empty_table (bq_tables w !! table_id)).
Proof. unfold rows_at, rows_of_month. by destruct (bq_tables w !! table_id). Qed.

(** X18. The run of one month does not block the run of another: when two
    loaded modules write to the same billing dataset and their dates lie
    in different months, a table for which the second module's
    [can_insert_data] answers true still gets that answer after a run of
    the first module, whatever that run stored. *)
Theorem other_month_not_blocked (g1 g2 : globals) (w : world) (table_name : string) :
  loaded g1 -> loaded g2 ->
  billing_project_id g1 = billing_project_id g2 ->
  billing_dataset_id g1 = billing_dataset_id g2 ->
  (year (date_tc g1), month (date_tc g1)) <> (year (date_tc g2), month (date_tc g2)) ->
  (forall r, failing w r = None) ->
  (can_insert_data g2 table_name w).1 = inr true ->
  (can_insert_data g2 table_name (main g1 w).2).1 = inr true.
Proof.
  intros Hl1 Hl2 Hp Hd Hdiff Hnf. rewrite !can_insert_data_eq. cbn [fst].
  assert (billing_table_id g2 table_name = billing_table_id g1 table_name) as Hid
    by (unfold billing_table_id; by rewrite Hp, Hd).
  rewrite Hid.
  assert (str_last_month g2 <> str_last_month g1) as Hkey.
  { intros E. apply Hdiff. symmetry in E.
    apply (loaded_key_iff g1 g2 Hl1 Hl2) in E as [-> ->]. done. }
  intros Hgate.
  apply gate_outcome_true in Hgate as [_ Hrows]; [|by apply no_failure_no_not_found].
  destruct (for_reports_adds g1 (reports g1) w (reports_ok g1 Hl1)
              (billing_table_id g1 table_name)) as (added & Hadd & Hall).
  assert (filter (fun r => cell "month" r = VString (str_last_month g2))
            (rows_at (main g1 w).2 (billing_table_id g1 table_name)) = []) as Hafter.
  { unfold main. rewrite Hadd, filter_app, rows_of_month_rows_at, Hrows.
    clear Hadd. induction Hall as [|r l Hr _ IH]; [done|].
    rewrite filter_cons_False; [done|]. rewrite Hr. congruence. }
  rewrite rows_of_month_rows_at in Hafter.
  destruct (for_reports_grows g1 (reports g1) w (reports_read_only g1)) as (_ & _ & Hf & _).
  unfold gate_outcome. fold (main g1 w) in Hf. rewrite Hf, !Hnf.
  destruct (bq_tables (main g1 w).2 !! _) as [t|]; [|done].
  cbn [default from_option id] in Hafter. by rewrite Hafter.
Qed.

(** The April module is let through for the storage table that the March
    run has just filled. *)
Lemma other_month_not_blocked_witness :
  (can_insert_data globals_april "storage_usage" (main globals_march world_busy).2).1
    = inr true.
Proof.
  apply other_month_not_blocked; try reflexivity.
  - exact loaded_globals_march.
  - split; [unfold valid; repeat split; by vm_compute|reflexivity].
  - by vm_compute.
Defined.
